(** * pkg/drivers/drivers.go: driver reconciliation and disk provisioning

    A shallow embedding of [drivers.go] of minikube.  Go strings are byte
    strings ([string], one [ascii] per byte), Go's [int] and [int64] are
    integers in [Z] with the wrap-around written out, the file system is a
    finite map from clean paths to inodes, and every function that touches
    the operating system is a computation in a state-and-error monad over a
    [World]. *)

From Stdlib Require Import ZArith Ascii String List Lia Bool.
From stdpp Require Import gmap strings list sorting.

Open Scope string_scope.
Open Scope list_scope.

(** ** Go's [strings] package, as far as [drivers.go] and [semver] use it *)

Module Strings.

(** [strings.HasPrefix(s, prefix)] *)
Fixpoint HasPrefix (s prefix : string) {struct prefix} : bool :=
  match prefix, s with
  | EmptyString, _ => true
  | String p prefix', String c s' => Ascii.eqb c p && HasPrefix s' prefix'
  | String _ _, EmptyString => false
  end.

(** [s[n:]] *)
Fixpoint drop (n : nat) (s : string) : string :=
  match n, s with
  | S n', String _ s' => drop n' s'
  | _, _ => s
  end.

(** [s[:n]] *)
Fixpoint take (n : nat) (s : string) : string :=
  match n, s with
  | S n', String c s' => String c (take n' s')
  | _, _ => EmptyString
  end.

(** [strings.TrimPrefix(s, prefix)]: [s] without the leading [prefix], or
    [s] itself when it does not start with it. *)
Definition TrimPrefix (s prefix : string) : string :=
  if HasPrefix s prefix then drop (String.length prefix) s else s.

(** [strings.Index(s, substr)]: the byte offset of the first occurrence. *)
Fixpoint Index (s substr : string) : option nat :=
  if HasPrefix s substr then Some 0
  else match s with
       | EmptyString => None
       | String _ s' => S <$> Index s' substr
       end.

(** [strings.IndexByte(s, c)] *)
Fixpoint IndexByte (s : string) (c : ascii) : option nat :=
  match s with
  | EmptyString => None
  | String a s' => if Ascii.eqb a c then Some 0 else S <$> IndexByte s' c
  end.

Fixpoint rev (s : string) : string :=
  match s with
  | EmptyString => EmptyString
  | String c s' => rev s' +:+ String c EmptyString
  end.

(** The UTF-8 encodings of the code points for which [unicode.IsSpace]
    holds: tab, LF, VT, FF, CR, space, U+0085, U+00A0, U+1680,
    U+2000..U+200A, U+2028, U+2029, U+202F, U+205F and U+3000. *)
Definition spaceRunes : list string :=
  [ String "009" ""; String "010" ""; String "011" ""; String "012" "";
    String "013" ""; String "032" "";
    String "194" (String "133" ""); String "194" (String "160" "");
    String "225" (String "154" (String "128" ""));
    String "226" (String "128" (String "128" ""));
    String "226" (String "128" (String "129" ""));
    String "226" (String "128" (String "130" ""));
    String "226" (String "128" (String "131" ""));
    String "226" (String "128" (String "132" ""));
    String "226" (String "128" (String "133" ""));
    String "226" (String "128" (String "134" ""));
    String "226" (String "128" (String "135" ""));
    String "226" (String "128" (String "136" ""));
    String "226" (String "128" (String "137" ""));
    String "226" (String "128" (String "138" ""));
    String "226" (String "128" (String "168" ""));
    String "226" (String "128" (String "169" ""));
    String "226" (String "128" (String "175" ""));
    String "226" (String "129" (String "159" ""));
    String "227" (String "128" (String "128" "")) ].

(** The remainder of [s] after one leading rune out of [runes], if [s]
    starts with one.  UTF-8 is prefix free, so at most one applies. *)
Fixpoint stripRune (runes : list string) (s : string) : option string :=
  match runes with
  | [] => None
  | r :: runes' =>
      if HasPrefix s r then Some (drop (String.length r) s)
      else stripRune runes' s
  end.

(** [strings.TrimLeftFunc(s, unicode.IsSpace)]; at most [String.length s]
    runes can be removed. *)
Fixpoint trimLeftRunes (runes : list string) (fuel : nat) (s : string) : string :=
  match fuel with
  | O => s
  | S fuel' =>
      match stripRune runes s with
      | Some s' => trimLeftRunes runes fuel' s'
      | None => s
      end
  end.

Definition TrimLeftSpace (s : string) : string :=
  trimLeftRunes spaceRunes (String.length s) s.

(** [strings.TrimRightFunc(s, unicode.IsSpace)]: the last rune of [s] is
    a space exactly when [s] ends with one of the encodings, that is when
    the reversed string starts with a reversed encoding. *)
Definition TrimRightSpace (s : string) : string :=
  rev (trimLeftRunes (map rev spaceRunes) (String.length s) (rev s)).

(** [strings.TrimSpace(s)] *)
Definition TrimSpace (s : string) : string :=
  TrimRightSpace (TrimLeftSpace s).

(** [strings.Split(s, sep)] for a one-byte separator. *)
Fixpoint splitAcc (sep : ascii) (cur : string) (s : string) : list string :=
  match s with
  | EmptyString => [rev cur]
  | String c s' =>
      if Ascii.eqb c sep then rev cur :: splitAcc sep EmptyString s'
      else splitAcc sep (String c cur) s'
  end.

Definition Split (s : string) (sep : ascii) : list string :=
  splitAcc sep EmptyString s.

(** [strings.SplitN(s, sep, n)] for a one-byte separator and [n > 0]: at
    most [n] pieces, the last one the unsplit remainder. *)
Fixpoint SplitN (s : string) (sep : ascii) (n : nat) : list string :=
  match n with
  | O => []
  | 1 => [s]
  | S n' =>
      match IndexByte s sep with
      | None => [s]
      | Some i => take i s :: SplitN (drop (S i) s) sep n'
      end
  end.

(** [strings.Join(elems, sep)] *)
Fixpoint Join (elems : list string) (sep : string) : string :=
  match elems with
  | [] => EmptyString
  | [e] => e
  | e :: elems' => e +:+ sep +:+ Join elems' sep
  end.

End Strings.

(** ** [regexp]: the one expression of [drivers.go], the literal
    [version:] followed by one capture group of dot-star *)

Module Regexp.

Definition literal : string := "version:".

(** What the group captures: the dot matches every byte but the line
    feed, and the star is greedy, so the group is the text up to the first line
    feed (or the end of the input). *)
Fixpoint dotStar (s : string) : string :=
  match s with
  | EmptyString => EmptyString
  | String c s' =>
      if Ascii.eqb c "010" then EmptyString else String c (dotStar s')
  end.

(** [versionRegex.FindStringSubmatch(s)]: the
    leftmost match and its group, or [nil] when nothing matches. *)
Definition FindStringSubmatch (s : string) : list string :=
  match Strings.Index s literal with
  | None => []
  | Some i =>
      let group := dotStar (Strings.drop (i + String.length literal) s) in
      [literal +:+ group; group]
  end.

End Regexp.

(** ** [k8s.io/minikube/pkg/version] *)

Module Version.

(** Modelled from the spec: the constant [version.VersionPrefix] of
    [pkg/version], the known version-prefix token: the [v] that
    [version: v1.2.3] carries in front of [1.2.3]. *)
Definition VersionPrefix : string := "v".

End Version.

(** [ExtractVMDriverVersion] extracts the driver version from the output
    of the driver's [version] command. *)
Definition ExtractVMDriverVersion (s : string) : string :=
  let matches := Regexp.FindStringSubmatch s in
  if negb (Nat.eqb (List.length matches) 2) then ""
  else
    let v := Strings.TrimSpace (nth 1 matches "") in
    Strings.TrimPrefix v Version.VersionPrefix.

(** ** Errors and results *)

(** The error numbers the modelled system calls report. *)
Inductive errno : Type :=
  | ENOENT | EEXIST | EINVAL | EIO | EACCES | EPERM | ENOSPC
  | ENOTDIR | EISDIR | ENOTEMPTY | EBADF.

(** Go [error] values: a system-call error, [errors.New] / [fmt.Errorf]
    (the format string stands for the message), and [errors.Wrap(cause,
    msg)] of [github.com/pkg/errors], which keeps its cause. *)
Inductive error : Type :=
  | Errno (e : errno)
  | ErrorString (msg : string)
  | Wrap (cause : error) (msg : string).

(** [errors.Cause] *)
Fixpoint Cause (e : error) : error :=
  match e with
  | Wrap c _ => Cause c
  | _ => e
  end.

(** [os.IsNotExist(err)] for a non-nil error: it looks at the error
    itself, not through [errors.Wrap]. *)
Definition IsNotExist (e : error) : bool :=
  match e with
  | Errno ENOENT => true
  | _ => false
  end.

#[global] Instance errno_eq_dec : EqDecision errno.
Proof. solve_decision. Defined.

#[global] Instance error_eq_dec : EqDecision error.
Proof. solve_decision. Defined.

(** What a Go function with an [error] result returns. *)
Inductive result (A : Type) : Type :=
  | Ok (a : A)
  | Err (e : error).
Arguments Ok {A} a.
Arguments Err {A} e.

Definition isOk {A} (r : result A) : bool :=
  match r with Ok _ => true | Err _ => false end.

(** A computation over a state [S] that returns a value or an error; the
    state is kept in both cases (a failed call leaves its effects). *)
Definition M (S A : Type) : Type := S -> result A * S.

Definition ret {S A} (a : A) : M S A := fun s => (Ok a, s).
Definition fail {S A} (e : error) : M S A := fun s => (Err e, s).

Definition bind {S A B} (m : M S A) (k : A -> M S B) : M S B :=
  fun s => match m s with
           | (Ok a, s') => k a s'
           | (Err e, s') => (Err e, s')
           end.

(** [x, err := m] followed by code that looks at [err] itself. *)
Definition catch {S A B} (m : M S A) (k : result A -> M S B) : M S B :=
  fun s => let '(r, s') := m s in k r s'.

Notation "'let*' x := m 'in' k" := (bind m (fun x => k))
  (at level 10, x name, m at level 100, k at level 200).

(** [if err != nil { return errors.Wrap(err, msg) }] *)
Definition wrapErr {S A} (m : M S A) (msg : string) : M S A :=
  fun s => match m s with
           | (Ok a, s') => (Ok a, s')
           | (Err e, s') => (Err (Wrap e msg), s')
           end.

(** [defer d]: [d] runs when the function returns, on every path, and its
    result is dropped. *)
Definition defer {S A B} (d : M S B) (body : M S A) : M S A :=
  fun s => let '(r, s') := body s in (r, snd (d s')).

(** ** [path/filepath] on a system whose separator is the slash *)

Module Filepath.

(** One path element pushed on the elements kept so far (innermost
    first), the way [Clean] treats it. *)
Definition cleanStep (rooted : bool) (stack : list string) (elem : string)
  : list string :=
  if String.eqb elem "" || String.eqb elem "." then stack
  else if String.eqb elem ".." then
    match stack with
    | top :: stack' =>
        if String.eqb top ".." then elem :: stack else stack'
    | [] => if rooted then [] else [elem]
    end
  else elem :: stack.

(** [filepath.Clean(path)] *)
Definition Clean (path : string) : string :=
  let rooted := Strings.HasPrefix path "/" in
  let elems := List.rev (fold_left (cleanStep rooted) (Strings.Split path "/") []) in
  let body := Strings.Join elems "/" in
  if rooted then "/" +:+ body
  else if String.eqb body "" then "." else body.

(** [filepath.Join(elem...)]: empty elements are ignored, the rest are
    joined by slashes and cleaned; all empty gives the empty string. *)
Definition Join (elem : list string) : string :=
  match filter (fun e => negb (String.eqb e "")) elem with
  | [] => ""
  | elems => Clean (Strings.Join elems "/")
  end.

(** The text of [path] up to and including its last slash. *)
Fixpoint dirPart (path : string) : string :=
  match path with
  | EmptyString => EmptyString
  | String c path' =>
      match Strings.IndexByte path' "/" with
      | Some _ => String c (dirPart path')
      | None => if Ascii.eqb c "/" then String c EmptyString else EmptyString
      end
  end.

(** [filepath.Dir(path)] *)
Definition Dir (path : string) : string := Clean (dirPart path).

(** The last element of a clean path: the text after the last slash. *)
Definition Base (path : string) : string :=
  Strings.drop (String.length (dirPart path)) path.

End Filepath.

(** ** The world: file system, process credentials, programs on the path *)

Inductive kind : Type := KFile | KDir.

#[global] Instance kind_eq_dec : EqDecision kind.
Proof. solve_decision. Defined.

(** An inode.  A regular file is sparse: [i_data] holds the bytes that were
    written, [i_size] is the length [stat] reports, and the bytes between
    the two read as zero, which is how [truncate] extends a file. *)
Record Inode : Type := mkInode {
  i_kind : kind;
  i_data : list Byte.byte;
  i_size : Z;
  i_uid : Z;
  i_gid : Z;
  i_mode : Z
}.

(** The file system: clean absolute paths to inodes.  [drivers.go] builds
    every path it passes to the system with [filepath.Join], so path
    resolution is the identity. *)
Abbreviation FS := (gmap string Inode).

(** An open file description behind an [*os.File]. *)
Record OpenFile : Type := mkOpenFile {
  of_path : string;
  of_off : nat
}.

(** What the process does to its surroundings, in program order. *)
Inductive event : Type :=
  | EvStat (path : string)
  | EvOpen (path : string)
  | EvSeek (fd : nat)
  | EvWrite (fd : nat) (n : nat)
  | EvClose (fd : nat)
  | EvTruncate (path : string) (size : Z)
  | EvChown (path : string) (uid gid : Z)
  | EvReadDir (path : string)
  | EvRemove (path : string)
  | EvChmod (path : string) (mode : Z)
  | EvLookPath (file : string)
  | EvExec (name : string) (args : list string)
  | EvOut (msg : string)
  | EvFetch (src dst : string)
  | EvB2dTar (publicSSHKeyPath : string)
  | EvCopyIso (storePath url machineName : string)
  | EvGenerateSSHKey (path : string).

(** The failures the environment can inject into a system call: the ones
    that do not depend on the state the model tracks. *)
Inductive fault : Type := FaultIO | FaultAccess | FaultPerm | FaultNoSpace.

Definition errnoOf (f : fault) : errno :=
  match f with
  | FaultIO => EIO
  | FaultAccess => EACCES
  | FaultPerm => EPERM
  | FaultNoSpace => ENOSPC
  end.

(** The state a run of the program starts in and leaves behind.

    [w_fault] is the environment's way to make a system call fail for a
    reason the model does not track: the
    call that would be the [n]-th event of the log fails with [w_fault n]
    if there is one; [w_short n] is the number of bytes a failing
    [write] at that point has already put into the file.  [w_lookPath] and
    [w_run] stand for the programs installed on the machine: what
    [exec.LookPath] finds and what running a command prints on its
    standard output. *)
Record World : Type := mkWorld {
  w_fs : FS;
  w_fds : gmap nat OpenFile;
  w_uid : Z;
  w_euid : Z;
  w_egid : Z;
  w_umask : Z;
  w_log : list event;
  w_fault : nat -> option fault;
  w_short : nat -> nat;
  w_lookPath : string -> result string;
  w_run : string -> list string -> result string
}.

Definition IO (A : Type) : Type := M World A.

Definition set_fs (f : FS -> FS) (w : World) : World :=
  mkWorld (f (w_fs w)) (w_fds w) (w_uid w) (w_euid w) (w_egid w) (w_umask w)
          (w_log w) (w_fault w) (w_short w) (w_lookPath w) (w_run w).

Definition set_fds (f : gmap nat OpenFile -> gmap nat OpenFile) (w : World) : World :=
  mkWorld (w_fs w) (f (w_fds w)) (w_uid w) (w_euid w) (w_egid w) (w_umask w)
          (w_log w) (w_fault w) (w_short w) (w_lookPath w) (w_run w).

Definition add_event (e : event) (w : World) : World :=
  mkWorld (w_fs w) (w_fds w) (w_uid w) (w_euid w) (w_egid w) (w_umask w)
          (w_log w ++ [e]) (w_fault w) (w_short w) (w_lookPath w) (w_run w).

(** One system call: it is logged, then either the environment fails it or
    [body] runs on the world as it was when the call was made. [body] gets
    the position of the call in the log. *)
Definition syscall {A} (e : event) (body : nat -> World -> result A * World) : IO A :=
  fun w =>
    let n := List.length (w_log w) in
    let w1 := add_event e w in
    match w_fault w n with
    | Some f => (Err (Errno (errnoOf f)), w1)
    | None => body n w1
    end.

(** An effect that cannot fail and that only the log records. *)
Definition emit (e : event) : IO unit := fun w => (Ok tt, add_event e w).

(** *** [syscall] and [os] *)

Module Os.

Definition Getuid : IO Z := fun w => (Ok (w_uid w), w).
Definition Geteuid : IO Z := fun w => (Ok (w_euid w), w).
Definition Getegid : IO Z := fun w => (Ok (w_egid w), w).

(** [os.Stat(name)] *)
Definition Stat (name : string) : IO Inode :=
  syscall (EvStat name) (fun _ w =>
    match w_fs w !! name with
    | Some i => (Ok i, w)
    | None => (Err (Errno ENOENT), w)
    end).

(** The inode [open] creates: empty, owned by the effective user and
    group, with the permission bits the umask leaves. *)
Definition newFile (perm : Z) (w : World) : Inode :=
  mkInode KFile [] 0 (w_euid w) (w_egid w) (Z.ldiff perm (w_umask w)).

(** [os.OpenFile(name, os.O_CREATE|os.O_EXCL|os.O_WRONLY, perm)]: it
    fails when [name] exists, and creates the file in its directory
    otherwise.  The result is the new descriptor. *)
Definition OpenFile_CREATE_EXCL_WRONLY (name : string) (perm : Z) : IO nat :=
  syscall (EvOpen name) (fun _ w =>
    match w_fs w !! name with
    | Some _ => (Err (Errno EEXIST), w)
    | None =>
        match w_fs w !! Filepath.Dir name with
        | None => (Err (Errno ENOENT), w)
        | Some d =>
            match i_kind d with
            | KFile => (Err (Errno ENOTDIR), w)
            | KDir =>
                let fd := fresh (dom (w_fds w)) in
                (Ok fd,
                 set_fds (insert fd (mkOpenFile name 0))
                   (set_fs (insert name (newFile perm w)) w))
            end
        end
    end).

(** [file.Seek(offset, io.SeekStart)] *)
Definition Seek_Start (fd : nat) (offset : nat) : IO nat :=
  syscall (EvSeek fd) (fun _ w =>
    match w_fds w !! fd with
    | None => (Err (Errno EBADF), w)
    | Some f => (Ok offset, set_fds (insert fd (mkOpenFile (of_path f) offset)) w)
    end).

(** The written bytes of a file after [b] is stored at offset [off]. *)
Definition pwrite (data : list Byte.byte) (off : nat) (b : list Byte.byte)
  : list Byte.byte :=
  take off (data ++ replicate (off - List.length data) Byte.x00)
    ++ b ++ drop (off + List.length b) data.

Definition writeInode (i : Inode) (off : nat) (b : list Byte.byte) : Inode :=
  mkInode (i_kind i) (pwrite (i_data i) off b)
          (Z.max (i_size i) (Z.of_nat (off + List.length b)))
          (i_uid i) (i_gid i) (i_mode i).

(** What [write] does to the world once [b] has gone out at the
    descriptor's offset. *)
Definition written (fd : nat) (f : OpenFile) (b : list Byte.byte) (w : World) : World :=
  set_fds (insert fd (mkOpenFile (of_path f) (of_off f + List.length b)))
    (set_fs (alter (fun i => writeInode i (of_off f) b) (of_path f)) w).

(** [file.Write(b)]: all of [b], or an error after part of it. *)
Definition Write (fd : nat) (b : list Byte.byte) : IO nat :=
  fun w =>
    let n := List.length (w_log w) in
    let w1 := add_event (EvWrite fd (List.length b)) w in
    match w_fds w1 !! fd with
    | None => (Err (Errno EBADF), w1)
    | Some f =>
        match w_fault w n with
        | Some flt => (Err (Errno (errnoOf flt)), written fd f (take (w_short w n) b) w1)
        | None => (Ok (List.length b), written fd f b w1)
        end
    end.

(** [file.Close()]: the descriptor is released even when the call
    reports an error; closing twice is an error. *)
Definition Close (fd : nat) : IO unit :=
  fun w =>
    let n := List.length (w_log w) in
    let w1 := add_event (EvClose fd) w in
    match w_fds w1 !! fd with
    | None => (Err (ErrorString "file already closed"), w1)
    | Some _ =>
        let w2 := set_fds (delete fd) w1 in
        match w_fault w n with
        | Some flt => (Err (Errno (errnoOf flt)), w2)
        | None => (Ok tt, w2)
        end
    end.

(** The file cut or extended to [size]: written bytes beyond [size] are
    dropped, and nothing is written when the file grows. *)
Definition truncateInode (i : Inode) (size : Z) : Inode :=
  mkInode (i_kind i)
          (if (Z.of_nat (List.length (i_data i)) <=? size)%Z then i_data i
           else take (Z.to_nat size) (i_data i))
          size (i_uid i) (i_gid i) (i_mode i).

(** [os.Truncate(name, size)] *)
Definition Truncate (name : string) (size : Z) : IO unit :=
  syscall (EvTruncate name size) (fun _ w =>
    if (size <? 0)%Z then (Err (Errno EINVAL), w)
    else match w_fs w !! name with
         | None => (Err (Errno ENOENT), w)
         | Some i =>
             match i_kind i with
             | KDir => (Err (Errno EISDIR), w)
             | KFile => (Ok tt, set_fs (insert name (truncateInode i size)) w)
             end
         end).

(** An id of [-1] leaves that id as it is. *)
Definition chownInode (i : Inode) (uid gid : Z) : Inode :=
  mkInode (i_kind i) (i_data i) (i_size i)
          (if (uid =? -1)%Z then i_uid i else uid)
          (if (gid =? -1)%Z then i_gid i else gid)
          (i_mode i).

(** [os.Chown(name, uid, gid)] *)
Definition Chown (name : string) (uid gid : Z) : IO unit :=
  syscall (EvChown name uid gid) (fun _ w =>
    match w_fs w !! name with
    | None => (Err (Errno ENOENT), w)
    | Some i => (Ok tt, set_fs (insert name (chownInode i uid gid)) w)
    end).

Definition chmodInode (i : Inode) (mode : Z) : Inode :=
  mkInode (i_kind i) (i_data i) (i_size i) (i_uid i) (i_gid i) mode.

(** [os.Chmod(name, mode)] *)
Definition Chmod (name : string) (mode : Z) : IO unit :=
  syscall (EvChmod name mode) (fun _ w =>
    match w_fs w !! name with
    | None => (Err (Errno ENOENT), w)
    | Some i => (Ok tt, set_fs (insert name (chmodInode i mode)) w)
    end).

(** The entries of directory [dir]: the last elements of the paths right
    below it. *)
Definition entries (fs : FS) (dir : string) : list string :=
  Filepath.Base <$>
    filter (fun p => Filepath.Dir p = dir /\ p <> dir) (map_to_list fs).*1.

(** [os.Remove(name)]: a file, or an empty directory. *)
Definition Remove (name : string) : IO unit :=
  syscall (EvRemove name) (fun _ w =>
    match w_fs w !! name with
    | None => (Err (Errno ENOENT), w)
    | Some i =>
        match i_kind i, entries (w_fs w) name with
        | KDir, _ :: _ => (Err (Errno ENOTEMPTY), w)
        | _, _ => (Ok tt, set_fs (delete name) w)
        end
    end).

End Os.

Module Ioutil.

(** [ioutil.ReadDir(dirname)]: the names of the entries, sorted. *)
Definition ReadDir (dirname : string) : IO (list string) :=
  syscall (EvReadDir dirname) (fun _ w =>
    match w_fs w !! dirname with
    | None => (Err (Errno ENOENT), w)
    | Some i =>
        match i_kind i with
        | KFile => (Err (Errno ENOTDIR), w)
        | KDir =>
            (Ok (merge_sort (fun a b => String.leb a b) (Os.entries (w_fs w) dirname)), w)
        end
    end).

End Ioutil.

(** ** Go's [int] *)

(** [int] and [int64] are 64 bits wide on the platforms minikube's drivers
    are built for; arithmetic wraps around in two's complement. *)
Definition intSize : Z := 64.

Definition wrapInt (z : Z) : Z :=
  ((z + 2 ^ (intSize - 1)) mod 2 ^ intSize - 2 ^ (intSize - 1))%Z.

Definition isInt (z : Z) : Prop :=
  (- 2 ^ (intSize - 1) <= z < 2 ^ (intSize - 1))%Z.

(** [a * b] on [int] *)
Definition intMul (a b : Z) : Z := wrapInt (a * b).

(** The conversion [int64(x)] of an [int]. *)
Definition int64 (x : Z) : Z := wrapInt x.

(** ** [github.com/blang/semver], as [InstallOrUpdate] uses it *)

Module Semver.

Definition numbers : string := "0123456789".
Definition alphas : string :=
  "abcdefghijklmnopqrstuvwxyzABCDEFGHIJKLMNOPQRSTUVWXYZ-".
Definition alphanum : string := alphas +:+ numbers.

(** [PRVersion]: one dot-separated part of a pre-release. *)
Record PRVersion : Type := mkPRVersion {
  VersionStr : string;
  VersionNum : Z;
  IsNum : bool
}.

Record Version : Type := mkVersion {
  Major : Z;
  Minor : Z;
  Patch : Z;
  Pre : list PRVersion;
  Build : list string
}.

(** [containsOnly(s, set)]: every character of [s] is one of [set]; the
    sets are ASCII, so no byte of a longer rune is in them. *)
Fixpoint containsOnly (s set : string) : bool :=
  match s with
  | EmptyString => true
  | String c s' =>
      match Strings.IndexByte set c with
      | Some _ => containsOnly s' set
      | None => false
      end
  end.

(** [hasLeadingZeroes(s)]: [len(s) > 1 && s[0] == '0'] *)
Definition hasLeadingZeroes (s : string) : bool :=
  match s with
  | String c (String _ _) => Ascii.eqb c "0"
  | _ => false
  end.

Fixpoint digitsValue (acc : Z) (s : string) : option Z :=
  match s with
  | EmptyString => Some acc
  | String c s' =>
      match Strings.IndexByte numbers c with
      | Some d => digitsValue (acc * 10 + Z.of_nat d)%Z s'
      | None => None
      end
  end.

(** [strconv.ParseUint(s, 10, 64)] *)
Definition ParseUint (s : string) : result Z :=
  match s with
  | EmptyString => Err (ErrorString "strconv.ParseUint: invalid syntax")
  | _ =>
      match digitsValue 0 s with
      | None => Err (ErrorString "strconv.ParseUint: invalid syntax")
      | Some v =>
          if (v <? 2 ^ 64)%Z then Ok v
          else Err (ErrorString "strconv.ParseUint: value out of range")
      end
  end.

(** The checks [Parse] makes on each of major, minor and patch. *)
Definition parseNumber (what : string) (s : string) : result Z :=
  if negb (containsOnly s numbers) then
    Err (ErrorString ("Invalid character(s) found in " +:+ what +:+ " number"))
  else if hasLeadingZeroes s then
    Err (ErrorString (what +:+ " number must not contain leading zeroes"))
  else ParseUint s.

(** [NewPRVersion(s)] *)
Definition NewPRVersion (s : string) : result PRVersion :=
  if String.eqb s "" then Err (ErrorString "Prerelease is empty")
  else if containsOnly s numbers then
    if hasLeadingZeroes s then
      Err (ErrorString "Numeric PreRelease version must not contain leading zeroes")
    else match ParseUint s with
         | Err e => Err e
         | Ok num => Ok (mkPRVersion "" num true)
         end
  else if containsOnly s alphanum then Ok (mkPRVersion s 0 false)
  else Err (ErrorString "Invalid character(s) found in prerelease").

Fixpoint parsePre (parts : list string) : result (list PRVersion) :=
  match parts with
  | [] => Ok []
  | p :: parts' =>
      match NewPRVersion p with
      | Err e => Err e
      | Ok pr =>
          match parsePre parts' with
          | Err e => Err e
          | Ok prs => Ok (pr :: prs)
          end
      end
  end.

Fixpoint parseBuild (parts : list string) : result (list string) :=
  match parts with
  | [] => Ok []
  | p :: parts' =>
      if String.eqb p "" then Err (ErrorString "Build meta data is empty")
      else if negb (containsOnly p alphanum) then
        Err (ErrorString "Invalid character(s) found in build meta data")
      else match parseBuild parts' with
           | Err e => Err e
           | Ok bs => Ok (p :: bs)
           end
  end.

(** [Parse(s)]: major, minor and then the patch with what follows it,
    build meta data after the plus sign and the pre-release after the
    first hyphen before it. *)
Definition Parse (s : string) : result Version :=
  if String.eqb s "" then Err (ErrorString "Version string empty")
  else
    match Strings.SplitN s "." 3 with
    | [p0; p1; p2] =>
        match parseNumber "major" p0 with
        | Err e => Err e
        | Ok major =>
        match parseNumber "minor" p1 with
        | Err e => Err e
        | Ok minor =>
            let '(build, patchStr) :=
              match Strings.IndexByte p2 "+" with
              | Some i => (Strings.Split (Strings.drop (S i) p2) ".", Strings.take i p2)
              | None => ([], p2)
              end in
            let '(prerelease, patchStr) :=
              match Strings.IndexByte patchStr "-" with
              | Some i =>
                  (Strings.Split (Strings.drop (S i) patchStr) ".",
                   Strings.take i patchStr)
              | None => ([], patchStr)
              end in
            match parseNumber "patch" patchStr with
            | Err e => Err e
            | Ok patch =>
            match parsePre prerelease with
            | Err e => Err e
            | Ok pre =>
            match parseBuild build with
            | Err e => Err e
            | Ok bld => Ok (mkVersion major minor patch pre bld)
            end end end
        end end
    | _ => Err (ErrorString "No Major.Minor.Patch elements found")
    end.

(** [Make(s)] is [Parse(s)]. *)
Definition Make (s : string) : result Version := Parse s.

Definition compareZ (a b : Z) : Z :=
  if (a =? b)%Z then 0%Z else if (a >? b)%Z then 1%Z else (-1)%Z.

(** [PRVersion.Compare]: numbers are below words, numbers compare by
    value and words byte by byte. *)
Definition comparePR (v o : PRVersion) : Z :=
  if IsNum v && negb (IsNum o) then (-1)%Z
  else if negb (IsNum v) && IsNum o then 1%Z
  else if IsNum v && IsNum o then compareZ (VersionNum v) (VersionNum o)
  else match String.compare (VersionStr v) (VersionStr o) with
       | Eq => 0%Z
       | Gt => 1%Z
       | Lt => (-1)%Z
       end.

(** The loop of [Version.Compare] over both pre-releases, and the test
    after it: the first difference decides, then the longer one is the
    greater. *)
Fixpoint comparePre (v o : list PRVersion) : Z :=
  match v, o with
  | [], [] => 0%Z
  | [], _ :: _ => (-1)%Z
  | _ :: _, [] => 1%Z
  | a :: v', b :: o' =>
      let comp := comparePR a b in
      if (comp =? 0)%Z then comparePre v' o'
      else if (comp =? 1)%Z then 1%Z else (-1)%Z
  end.

(** [v.Compare(o)]: -1, 0 or 1 *)
Definition Compare (v o : Version) : Z :=
  if negb (Major v =? Major o)%Z then
    (if (Major v >? Major o)%Z then 1 else -1)%Z
  else if negb (Minor v =? Minor o)%Z then
    (if (Minor v >? Minor o)%Z then 1 else -1)%Z
  else if negb (Patch v =? Patch o)%Z then
    (if (Patch v >? Patch o)%Z then 1 else -1)%Z
  else
    match Pre v, Pre o with
    | [], [] => 0%Z
    | [], _ :: _ => 1%Z
    | _ :: _, [] => (-1)%Z
    | pv, po => comparePre pv po
    end.

(** [v.LT(o)] *)
Definition LT (v o : Version) : bool := (Compare v o =? -1)%Z.

End Semver.

(** ** The collaborators outside this package *)

(** The libmachine helpers and the downloader, by what they do to the file
    system.  [mcnutils_MakeDiskImage] reads the public key and builds the
    archive in memory, so it returns no file system. *)
Class Externals : Type := {
  mcnutils_MakeDiskImage : string -> FS -> result (list Byte.byte);
  b2d_CopyIsoToMachineDir : string -> string -> string -> FS -> result unit * FS;
  ssh_GenerateSSHKey : string -> FS -> result unit * FS;
  getter_Get : string -> string -> FS -> result unit * FS
}.

(** A call to a collaborator: logged, then run on the file system. *)
Definition extern {A} (e : event) (f : FS -> result A * FS) : IO A :=
  fun w =>
    let w1 := add_event e w in
    let '(r, fs') := f (w_fs w1) in
    (r, set_fs (fun _ => fs') w1).

Module Exec.

(** [exec.LookPath(file)] *)
Definition LookPath (file : string) : IO string :=
  fun w => (w_lookPath w file, add_event (EvLookPath file) w).

(** [exec.Command(name, arg...).Output()] *)
Definition Output (name : string) (arg : list string) : IO string :=
  fun w => (w_run w name arg, add_event (EvExec name arg) w).

End Exec.

Module Glog.

(** [glog.Infof]: a line in the diagnostic log, which is not part of the
    world. *)
Definition Infof (msg : string) : IO unit := ret tt.

End Glog.

Module Out.

(** [out.T(style, format, args)]: a line on the console. *)
Definition T (msg : string) : IO unit := emit (EvOut msg).

End Out.

(** ** [github.com/docker/machine/libmachine/drivers] *)

Record BaseDriver : Type := mkBaseDriver {
  MachineName : string;
  StorePath : string;
  SSHKeyPath : string
}.

(** [d.ResolveStorePath(file)] *)
Definition ResolveStorePath (d : BaseDriver) (file : string) : string :=
  Filepath.Join [StorePath d; "machines"; MachineName d; file].

(** [d.GetMachineName()] *)
Definition GetMachineName (d : BaseDriver) : string := MachineName d.

(** [d.GetSSHKeyPath()]: the configured key path, [id_rsa] in the machine
    directory when none is set. *)
Definition GetSSHKeyPath (d : BaseDriver) : string :=
  if String.eqb (SSHKeyPath d) "" then ResolveStorePath d "id_rsa"
  else SSHKeyPath d.

(** The [Driver] interface, as far as [Restart] uses it: two methods that
    act on a state [S] (the machine and the driver's own fields). *)
Class Driver (D S : Type) : Type := {
  Stop : D -> M S unit;
  Start : D -> M S unit
}.

(** ** [drivers.go] *)

Definition driverKVMDownloadURL : string :=
  "https://storage.googleapis.com/minikube/releases/latest/docker-machine-driver-kvm2".

(** [GetDiskPath] returns the path of the machine disk image. *)
Definition GetDiskPath (d : BaseDriver) : string :=
  Filepath.Join [ResolveStorePath d "."; GetMachineName d +:+ ".rawdisk"].

Definition publicSSHKeyPath (d : BaseDriver) : string :=
  GetSSHKeyPath d +:+ ".pub".

(** [Restart]: [Stop], and [Start] if that went well. *)
Definition Restart {D S} `{Driver D S} (d : D) : M S unit :=
  catch (Stop d) (fun r =>
    match r with
    | Err err => fail err
    | Ok _ => Start d
    end).

(** The loop of [fixPermissions] over the directory entries. *)
Fixpoint chownFiles (path : string) (files : list string) : IO unit :=
  match files with
  | [] => ret tt
  | f :: files' =>
      let fp := Filepath.Join [path; f] in
      let* _ := wrapErr (let* uid := Os.Getuid in let* gid := Os.Getegid in
                   Os.Chown fp uid gid) "chown file" in
      chownFiles path files'
  end.

Definition fixPermissions (path : string) : IO unit :=
  let* _ := Glog.Infof ("Fixing permissions on " +:+ path +:+ " ...") in
  let* _ := wrapErr (let* uid := Os.Getuid in let* gid := Os.Getegid in
               Os.Chown path uid gid) "chown dir" in
  let* files := wrapErr (Ioutil.ReadDir path) "read dir" in
  chownFiles path files.

Section WithExternals.

Context `{Externals}.

Definition createRawDiskImage (sshKeyPath diskPath : string) (diskSizeMb : Z)
  : IO unit :=
  let* tarBuf := wrapErr (extern (EvB2dTar sshKeyPath)
                          (fun fs => (mcnutils_MakeDiskImage sshKeyPath fs, fs)))
                       "make disk image" in
  let* file := wrapErr (Os.OpenFile_CREATE_EXCL_WRONLY diskPath 420) "open" in
  defer (Os.Close file)
    (let* _ := wrapErr (Os.Seek_Start file 0) "seek" in
     let* _ := wrapErr (Os.Write file tarBuf) "write tar" in
     let* _ := wrapErr (Os.Close file) ("closing file " +:+ diskPath) in
     let* _ := wrapErr (Os.Truncate diskPath (int64 (intMul diskSizeMb 1000000)))
                 "truncate" in
     ret tt).

(** [MakeDiskImage] makes a boot2docker VM disk image. *)
Definition MakeDiskImage (d : BaseDriver) (boot2dockerURL : string) (diskSize : Z)
  : IO unit :=
  let* _ := Glog.Infof ("Making disk image using store path: " +:+ StorePath d) in
  let* _ := wrapErr (extern (EvCopyIso (StorePath d) boot2dockerURL (MachineName d))
                 (b2d_CopyIsoToMachineDir (StorePath d) boot2dockerURL (MachineName d)))
              "copy iso to machine dir" in
  let keyPath := GetSSHKeyPath d in
  let* _ := Glog.Infof ("Creating ssh key: " +:+ keyPath +:+ "...") in
  let* _ := wrapErr (extern (EvGenerateSSHKey keyPath) (ssh_GenerateSSHKey keyPath))
              "generate ssh key" in
  let diskPath := GetDiskPath d in
  let* _ := Glog.Infof ("Creating raw disk image: " +:+ diskPath +:+ "...") in
  catch (Os.Stat diskPath) (fun r =>
    match r with
    | Err err =>
        if IsNotExist err then
          let* _ := wrapErr (createRawDiskImage (publicSSHKeyPath d) diskPath diskSize)
                      ("createRawDiskImage(" +:+ diskPath +:+ ")") in
          let machPath := ResolveStorePath d "." in
          let* _ := wrapErr (fixPermissions machPath)
                      ("fixing permissions on " +:+ machPath) in
          ret tt
        else ret tt
    | Ok _ => ret tt
    end).

Definition download (driver destination : string) : IO unit :=
  if negb (String.eqb driver "docker-machine-driver-kvm2") then ret tt
  else
    let* _ := Out.T ("Downloading driver " +:+ driver +:+ ":") in
    let targetFilepath := Filepath.Join [destination; "docker-machine-driver-kvm2"] in
    catch (Os.Remove targetFilepath) (fun _ =>
      let url := driverKVMDownloadURL in
      let* _ := wrapErr (extern (EvFetch url targetFilepath) (getter_Get url targetFilepath))
                  ("can't download driver " +:+ driver +:+ " from: " +:+ url) in
      let* _ := wrapErr (Os.Chmod targetFilepath 511) "chmod error" in
      ret tt).

(** [InstallOrUpdate] downloads driver if it is not present, or updates
    it if there's a newer version. *)
Definition InstallOrUpdate (driver destination : string)
           (minikubeVersion : Semver.Version) : IO unit :=
  catch (Exec.LookPath driver) (fun r =>
    match r with
    | Err _ => download driver destination
    | Ok _ =>
        catch (Exec.Output driver ["version"]) (fun r =>
          match r with
          | Err _ => download driver destination
          | Ok output =>
              let v := ExtractVMDriverVersion output in
              if Nat.eqb (String.length v) 0 then download driver destination
              else
                match Semver.Make v with
                | Err err => fail (Wrap err "can't parse driver version")
                | Ok vmDriverVersion =>
                    if Semver.LT vmDriverVersion minikubeVersion
                    then download driver destination
                    else ret tt
                end
          end)
    end).

End WithExternals.

(** ** Observing the calls of [Restart] *)

Inductive call : Type := CallStop | CallStart.

(** A driver whose methods also note that they were called. *)
Definition traced {D S} (drv : Driver D S) : Driver D (list call * S) :=
  {| Stop := fun d '(calls, s) =>
       let '(r, s') := @Stop D S drv d s in (r, ((calls ++ [CallStop])%list, s'));
     Start := fun d '(calls, s) =>
       let '(r, s') := @Start D S drv d s in (r, ((calls ++ [CallStart])%list, s')) |}.

(** ** A machine to run the functions on *)

Module Sample.

Definition bytesOf (s : string) : list Byte.byte :=
  map byte_of_ascii (list_ascii_of_string s).

Definition file (data : list Byte.byte) (uid gid mode : Z) : Inode :=
  mkInode KFile data (Z.of_nat (List.length data)) uid gid mode.

Definition dir (uid gid : Z) : Inode := mkInode KDir [] 0 uid gid 493.

(** Collaborators that behave: the archive is a header and the key, the
    ISO lands in the machine directory, the key pair is written once,
    and the download puts a file at its destination. *)
Definition externals : Externals :=
  {| mcnutils_MakeDiskImage := fun key fs =>
       match fs !! key with
       | Some i => Ok (bytesOf "boot2docker, please format-me" ++ i_data i)%list
       | None => Err (Errno ENOENT)
       end;
     b2d_CopyIsoToMachineDir := fun store url name fs =>
       (Ok tt,
        <[Filepath.Join [store; "machines"; name; "boot2docker.iso"] :=
            file (bytesOf "iso") 0 0 420]> fs);
     ssh_GenerateSSHKey := fun path fs =>
       match fs !! path with
       | Some _ => (Ok tt, fs)
       | None =>
           (Ok tt, <[path := file (bytesOf "private") 0 0 384]>
                     (<[path +:+ ".pub" := file (bytesOf "public") 0 0 420]> fs))
       end;
     getter_Get := fun src dst fs =>
       (Ok tt, <[dst := file (bytesOf "driver") 0 0 420]> fs) |}.

Definition d : BaseDriver := mkBaseDriver "m" "/store" "".

(** The machine directory exists and belongs to the invoking user; the
    process runs set-uid root, as the hyperkit driver does. *)
Definition fs0 : FS :=
  {[ "/store/machines/m" := dir 1000 1000 ]}.

Definition noProgram : string -> result string :=
  fun _ => Err (ErrorString "executable file not found in $PATH").

Definition world (fs : FS) (flt : nat -> option fault)
           (lookPath : string -> result string)
           (output : string -> list string -> result string) : World :=
  mkWorld fs ∅ 1000 0 1000 18 [] flt (fun _ => 0)
          lookPath output.

Definition noFault : nat -> option fault := fun _ => None.

Definition w0 : World :=
  world fs0 noFault noProgram (fun _ _ => Err (ErrorString "exit status 1")).

Definition kvm2 : string := "docker-machine-driver-kvm2".

(** A driver on the path whose [version] command prints [output]. *)
Definition probed (output : string) : World :=
  world fs0 noFault (fun f => Ok ("/usr/local/bin/" +:+ f))
        (fun _ _ => Ok output).

Definition v100 : Semver.Version := Semver.mkVersion 1 0 0 [] [].

End Sample.


(** ** Vocabulary of the statements *)

(** The line feed that ends a line. *)
Definition LF : string := String "010" "".

(** [text] has [line] among its lines. *)
Definition hasLine (text line : string) : bool :=
  existsb (String.eqb line) (Strings.Split text "010").

(** The world once [InstallOrUpdate] has looked for the driver and run its
    [version] command. *)
Definition probeWorld (driver : string) (w : World) : World :=
  add_event (EvExec driver ["version"]) (add_event (EvLookPath driver) w).

(** The events a run added to the log of the world it started in. *)
Definition eventsSince (w w' : World) : list event :=
  drop (List.length (w_log w)) (w_log w').

Definition ownedBy (uid gid : Z) (fs : FS) (path : string) : Prop :=
  exists i, fs !! path = Some i /\ i_uid i = uid /\ i_gid i = gid.

#[global] Instance event_eq_dec : EqDecision event.
Proof. solve_decision. Defined.

(** How often the events have an exclusive create of [diskPath]: the
    number of raw-disk builds. *)
Definition builds (diskPath : string) (evs : list event) : nat :=
  List.length (filter (fun e => e = EvOpen diskPath) evs).

(** The first two steps of [MakeDiskImage], on the file system: the ISO
    is staged and the key pair generated, both without error. *)
Definition staged `{Externals} (d : BaseDriver) (boot2dockerURL : string)
           (fs fs' : FS) : Prop :=
  exists fs1,
    b2d_CopyIsoToMachineDir (StorePath d) boot2dockerURL (MachineName d) fs
      = (Ok tt, fs1)
    /\ ssh_GenerateSSHKey (GetSSHKeyPath d) fs1 = (Ok tt, fs').

(** The three events of a call of [MakeDiskImage] that finds the image. *)
Definition skipEvents (d : BaseDriver) (boot2dockerURL : string) : list event :=
  [EvCopyIso (StorePath d) boot2dockerURL (MachineName d);
   EvGenerateSSHKey (GetSSHKeyPath d);
   EvStat (GetDiskPath d)].

Section Outcome.

Context `{Externals}.

(** The four ways [createRawDiskImage] ends: the archive cannot be
    built; the exclusive create fails; a later step fails, with the new
    file left behind; or all steps succeed. *)
Inductive rawDiskOutcome (sshKeyPath diskPath : string) (diskSizeMb : Z)
          (w : World) : result unit * World -> Prop :=
| RawNoArchive err :
    mcnutils_MakeDiskImage sshKeyPath (w_fs w) = Err err ->
    rawDiskOutcome sshKeyPath diskPath diskSizeMb w
      (Err (Wrap err "make disk image"), add_event (EvB2dTar sshKeyPath) w)
| RawNoOpen tarBuf err w' :
    mcnutils_MakeDiskImage sshKeyPath (w_fs w) = Ok tarBuf ->
    w_fs w' = w_fs w ->
    (is_Some (w_fs w !! diskPath) ->
     w_fault w (List.length (w_log w ++ [EvB2dTar sshKeyPath])) = None ->
     err = Errno EEXIST) ->
    rawDiskOutcome sshKeyPath diskPath diskSizeMb w (Err (Wrap err "open"), w')
| RawLeftBehind tarBuf err msg w' :
    mcnutils_MakeDiskImage sshKeyPath (w_fs w) = Ok tarBuf ->
    msg ∈ ["seek"; "write tar"; "closing file " +:+ diskPath; "truncate"] ->
    w_fs w !! diskPath = None ->
    is_Some (w_fs w' !! diskPath) ->
    rawDiskOutcome sshKeyPath diskPath diskSizeMb w (Err (Wrap err msg), w')
| RawBuilt tarBuf w' i fd :
    mcnutils_MakeDiskImage sshKeyPath (w_fs w) = Ok tarBuf ->
    w_fs w !! diskPath = None ->
    w_fs w' !! diskPath = Some i ->
    i_kind i = KFile ->
    i_size i = int64 (intMul diskSizeMb 1000000) ->
    (0 <= int64 (intMul diskSizeMb 1000000))%Z ->
    (forall p, p <> diskPath -> w_fs w' !! p = w_fs w !! p) ->
    w_log w' = w_log w ++
      [EvB2dTar sshKeyPath; EvOpen diskPath; EvSeek fd;
       EvWrite fd (List.length tarBuf); EvClose fd;
       EvTruncate diskPath (int64 (intMul diskSizeMb 1000000)); EvClose fd] ->
    w_uid w' = w_uid w -> w_egid w' = w_egid w -> w_fault w' = w_fault w ->
    rawDiskOutcome sshKeyPath diskPath diskSizeMb w (Ok tt, w').

End Outcome.

(** ** Scenarios on the sample machine *)

(** The machine directory with the key pair in it. *)
Definition keyed : FS :=
  (@ssh_GenerateSSHKey Sample.externals "/store/machines/m/id_rsa" Sample.fs0).2.

Definition rawdisk : string := "/store/machines/m/m.rawdisk".
Definition pubkey : string := "/store/machines/m/id_rsa.pub".

(** The disk fills up while the archive is written: the fourth system
    event, the write, fails. *)
Definition diskFull : World :=
  Sample.world keyed (fun n => if Nat.eqb n 3 then Some FaultNoSpace else None)
               Sample.noProgram (fun _ _ => Err (ErrorString "exit status 1")).

(** A world in which the image is already there. *)
Definition withImage : World :=
  Sample.world (<[rawdisk := Sample.file (Sample.bytesOf "old image") 1000 1000 420]> keyed)
               Sample.noFault Sample.noProgram
               (fun _ _ => Err (ErrorString "exit status 1")).

(** A world ready for the build: key pair written, no image, no faults. *)
Definition ready : World :=
  Sample.world keyed Sample.noFault Sample.noProgram
               (fun _ _ => Err (ErrorString "exit status 1")).

(** The sample machine after one provisioning, and its file system after
    a second one. *)
Definition provisioned : World :=
  (@MakeDiskImage Sample.externals Sample.d "url" 20000 Sample.w0).2.

Definition provisionedAgain : FS :=
  w_fs (@MakeDiskImage Sample.externals Sample.d "url" 20000 provisioned).2.

(** The supported driver is installed and reports version 0.9.9. *)
Definition outdated : World :=
  Sample.probed ("version: v0.9.9" +:+ LF +:+ "commit: 1").

(** ** Vocabulary of the further statements *)

(** Where [download] puts the driver. *)
Definition targetOf (destination : string) : string :=
  Filepath.Join [destination; "docker-machine-driver-kvm2"].

(** The world in which [download] calls the fetcher: the console line is
    out and the stale file, if it could be removed, is gone. *)
Definition beforeFetch (destination : string) (w : World) : World :=
  (Os.Remove (targetOf destination)
     (add_event (EvOut "Downloading driver docker-machine-driver-kvm2:") w)).2.

(** The events [download] can add. *)
Definition installEvent (e : event) : Prop :=
  match e with
  | EvOut _ | EvRemove _ | EvFetch _ _ | EvChmod _ _ => True
  | _ => False
  end.

(** What [os.Chown] leaves of an inode. *)
Definition sameButOwner (i i' : Inode) : Prop :=
  i_kind i' = i_kind i /\ i_data i' = i_data i /\ i_size i' = i_size i
  /\ i_mode i' = i_mode i.

(** The inode of a file that [open] created for the process of [w] and
    that holds [data] with the length [size]. *)
Definition builtInode (w : World) (data : list Byte.byte) (size : Z) : Inode :=
  mkInode KFile data size (w_euid w) (w_egid w) (Z.ldiff 420 (w_umask w)).

(** The archive, cut where a [truncate] to [size] cuts it. *)
Definition cutTo (size : Z) (data : list Byte.byte) : list Byte.byte :=
  if (Z.of_nat (List.length data) <=? size)%Z then data
  else take (Z.to_nat size) data.

(** The environment fails no system call. *)
Definition faultFree (w : World) : Prop := forall n, w_fault w n = None.

(** The events [createRawDiskImage] can add. *)
Definition buildEvent (e : event) : Prop :=
  match e with
  | EvB2dTar _ | EvOpen _ | EvSeek _ | EvWrite _ _ | EvClose _
  | EvTruncate _ _ => True
  | _ => False
  end.

(** The process is the one of [w]: same real user, effective user and
    group, umask and environment. *)
Definition sameProcess (w w' : World) : Prop :=
  w_uid w' = w_uid w /\ w_euid w' = w_euid w /\ w_egid w' = w_egid w
  /\ w_umask w' = w_umask w /\ w_fault w' = w_fault w.

(** The disk image is an entry of the machine directory, which is the
    case when the store path is clean and the machine name a plain name. *)
Definition imageInMachineDir (d : BaseDriver) : Prop :=
  let dir := ResolveStorePath d "." in
  Filepath.Dir (GetDiskPath d) = dir
  /\ GetDiskPath d <> dir
  /\ Filepath.Join [dir; Filepath.Base (GetDiskPath d)] = GetDiskPath d.

(** The steps of [createRawDiskImage] after the exclusive create, by the
    text their errors carry. *)
Definition laterSteps (diskPath : string) : list string :=
  ["seek"; "write tar"; "closing file " +:+ diskPath; "truncate"].

(** ** Further scenarios on the sample machine *)

(** Collaborators without a network: the ISO cannot be copied and the
    driver cannot be fetched. *)
Definition offline : Externals :=
  {| mcnutils_MakeDiskImage := @mcnutils_MakeDiskImage Sample.externals;
     b2d_CopyIsoToMachineDir := fun _ _ _ fs =>
       (Err (ErrorString "no route to host"), fs);
     ssh_GenerateSSHKey := @ssh_GenerateSSHKey Sample.externals;
     getter_Get := fun _ _ fs => (Err (ErrorString "no route to host"), fs) |}.

Definition noOutput : string -> list string -> result string :=
  fun _ _ => Err (ErrorString "exit status 1").

(** An old driver file is where the new one goes. *)
Definition staleDriver : World :=
  Sample.world (<["/usr/local/bin/docker-machine-driver-kvm2" :=
                    Sample.file (Sample.bytesOf "old driver") 0 0 493]> Sample.fs0)
               Sample.noFault Sample.noProgram noOutput.

(** The installed driver reports a release candidate of 1.0.0, or
    something that is no version. *)
Definition releaseCandidate : World := Sample.probed "version: v1.0.0-rc.1".
Definition unparsable : World := Sample.probed "version: abc".

(** The public key is there, the machine directory is not. *)
Definition noMachineDir : World :=
  Sample.world {["/keys/id_rsa.pub" := Sample.file (Sample.bytesOf "public") 0 0 420]}
               Sample.noFault Sample.noProgram noOutput.

(** The machine directory has a subdirectory with a file in it. *)
Definition nested : World :=
  Sample.world (<["/store/machines/m/logs" := Sample.dir 0 0]>
                  (<["/store/machines/m/logs/vm.log" :=
                       Sample.file (Sample.bytesOf "log") 0 0 420]> keyed))
               Sample.noFault Sample.noProgram noOutput.

(** The third system event of a provisioning, the [stat], is refused. *)
Definition statDenied : World :=
  Sample.world Sample.fs0 (fun n => if Nat.eqb n 2 then Some FaultAccess else None)
               Sample.noProgram noOutput.

(** The disk fills up during a provisioning: its seventh event, the
    write, fails. *)
Definition fullDuringProvision : World :=
  Sample.world Sample.fs0 (fun n => if Nat.eqb n 6 then Some FaultNoSpace else None)
               Sample.noProgram noOutput.

(** A size in megabytes whose product with 1,000,000 is beyond the range
    of [int]. *)
Definition tooLarge : Z := 9223372036855.

(** Every entry of directory [dir] is found under the name that
    [filepath.Join] gives it, as it is when the paths of the file system
    are clean. *)
Definition entriesResolve (fs : FS) (dir : string) : Prop :=
  Forall (fun name => is_Some (fs !! Filepath.Join [dir; name]))
         (Os.entries fs dir).

(** * Properties *)

(** ** Version-token extraction *)

Section Extraction.

Import Strings.

Lemma str_app_nil_l (s : string) : "" +:+ s = s.
Proof. reflexivity. Qed.

Lemma str_app_cons (c : ascii) (a b : string) :
  String c a +:+ b = String c (a +:+ b).
Proof. reflexivity. Qed.

Lemma str_drop_app_length (p rest : string) :
  drop (String.length p) (p +:+ rest) = rest.
Proof.
  induction p as [|c p IH]; rewrite ?str_app_nil_l, ?str_app_cons; simpl;
    [by destruct rest|done].
Qed.

Lemma str_app_assoc (a b c : string) : (a +:+ b) +:+ c = a +:+ (b +:+ c).
Proof.
  induction a as [|x a IH]; rewrite ?str_app_nil_l, ?str_app_cons; congruence.
Qed.

Lemma str_length_app (a b : string) :
  String.length (a +:+ b) = String.length a + String.length b.
Proof.
  induction a as [|x a IH]; rewrite ?str_app_nil_l, ?str_app_cons; simpl; congruence.
Qed.

(** The literal has no border: a place where it matches cannot start in
    the text before an occurrence and reach into that occurrence. *)
Lemma literal_no_overlap (p rest : string) :
  p <> "" ->
  HasPrefix p Regexp.literal = false ->
  HasPrefix (p +:+ Regexp.literal +:+ rest) Regexp.literal = false.
Proof.
  unfold Regexp.literal. intros Hne Hp.
  destruct p as [|c p]; [done|]. clear Hne.
  repeat
    (rewrite ?str_app_nil_l, ?str_app_cons; simpl in *;
     match goal with
     | |- context [Ascii.eqb ?c ?k] =>
         is_var c; destruct (Ascii.eqb c k); simpl in *; [|reflexivity]
     end;
     try discriminate;
     destruct p as [|? p]; [reflexivity|]).
  rewrite str_app_cons. exact Hp.
Qed.

Lemma Index_first (pre rest : string) :
  Index pre Regexp.literal = None ->
  Index (pre +:+ Regexp.literal +:+ rest) Regexp.literal
    = Some (String.length pre).
Proof.
  induction pre as [|c pre IH]; intros Hnone.
  - reflexivity.
  - cbn [Index] in Hnone.
    destruct (HasPrefix (String c pre) Regexp.literal) eqn:Hp; [done|].
    destruct (Index pre Regexp.literal) eqn:Hi; [done|].
    pose proof (literal_no_overlap (String c pre) rest) as Hov.
    rewrite str_app_cons in Hov |- *. cbn [Index].
    rewrite Hov by done. by rewrite IH.
Qed.

Lemma dotStar_line (line post : string) :
  IndexByte line "010" = None ->
  post = "" \/ HasPrefix post (String "010" "") = true ->
  Regexp.dotStar (line +:+ post) = line.
Proof.
  intros Hline Hpost.
  induction line as [|c line IH]; rewrite ?str_app_nil_l, ?str_app_cons; simpl in *.
  - destruct Hpost as [->|Hpost]; [done|].
    destruct post as [|a post]; [done|]. simpl in *.
    destruct (Ascii.eqb a "010"); [done|discriminate].
  - destruct (Ascii.eqb c "010"); [done|].
    destruct (IndexByte line "010"); [done|]. by rewrite IH.
Qed.

(** What the function returns when the text has an occurrence of the
    literal: the rest of the line after the first one, trimmed and
    without the prefix. *)
Lemma Extract_first_occurrence (pre line post : string) :
  Index pre Regexp.literal = None ->
  IndexByte line "010" = None ->
  post = "" \/ HasPrefix post (String "010" "") = true ->
  ExtractVMDriverVersion (pre +:+ Regexp.literal +:+ line +:+ post)
    = TrimPrefix (TrimSpace line) Version.VersionPrefix.
Proof.
  intros Hpre Hline Hpost.
  unfold ExtractVMDriverVersion, Regexp.FindStringSubmatch.
  rewrite Index_first by done. cbn [List.length Nat.eqb negb nth].
  replace (drop (String.length pre + String.length Regexp.literal)
                (pre +:+ Regexp.literal +:+ line +:+ post))
    with (line +:+ post).
  - by rewrite dotStar_line.
  - rewrite <- (str_app_assoc pre Regexp.literal (line +:+ post)).
    rewrite <- str_length_app. by rewrite str_drop_app_length.
Qed.

Lemma Extract_no_occurrence (s : string) :
  Index s Regexp.literal = None -> ExtractVMDriverVersion s = "".
Proof.
  intros Hs. unfold ExtractVMDriverVersion, Regexp.FindStringSubmatch.
  by rewrite Hs.
Qed.

End Extraction.

(** ** Proof steps *)

Ltac world_simpl :=
  cbn [w_log w_fs w_fds w_fault w_short w_uid w_euid w_egid w_umask
       w_lookPath w_run set_fs set_fds add_event of_path of_off] in *.

Ltac inode_simpl :=
  cbn [i_kind i_data i_size i_uid i_gid i_mode Os.newFile Os.writeInode
       Os.truncateInode Os.chownInode Os.chmodInode] in *.

Ltac case_fault :=
  match goal with
  | |- context [w_fault ?w ?n] => destruct (w_fault w n) eqn:?
  end.

Ltac map_simpl :=
  rewrite ?lookup_alter_eq, ?lookup_insert_eq; cbn [fmap option_fmap option_map].

Ltac case_fault_in H :=
  match type of H with
  | context [w_fault ?w ?n] => destruct (w_fault w n) eqn:?
  end.


(** C6, as the claim has it, fails: a text can contain the line
    [version: v1.2.3] and have an earlier match, and the earlier match is
    the one returned. *)
Lemma C6_counterexample :
  ~ (forall s : string,
       hasLine s "version: v1.2.3" = true ->
       ExtractVMDriverVersion s = "1.2.3").
Proof.
  intros Hall.
  specialize (Hall ("version: v0.1.0" +:+ LF +:+ "version: v1.2.3"
                    +:+ LF +:+ "commit: 00000") eq_refl).
  vm_compute in Hall. discriminate.
Qed.

(** C6, amended: when nothing before the line [version: v1.2.3] contains
    [version:], and the line ends the text or is followed by further
    lines, the result is [1.2.3]; a text without [version:] gives the
    empty string. *)
Theorem C6_extract_first_version_line (pre post : string) :
  Strings.Index pre "version:" = None ->
  post = "" \/ Strings.HasPrefix post LF = true ->
  ExtractVMDriverVersion (pre +:+ "version: v1.2.3" +:+ post) = "1.2.3"
  /\ (forall s : string,
        Strings.Index s "version:" = None -> ExtractVMDriverVersion s = "").
Proof.
  intros Hpre Hpost. split.
  - change (pre +:+ "version: v1.2.3" +:+ post)
      with (pre +:+ Regexp.literal +:+ " v1.2.3" +:+ post).
    by rewrite Extract_first_occurrence.
  - apply Extract_no_occurrence.
Qed.

Lemma C6_extract_first_version_line_witness :
  ExtractVMDriverVersion
    ("" +:+ "version: v1.2.3" +:+ (LF +:+ "commit: 00000")) = "1.2.3".
Proof.
  apply (C6_extract_first_version_line "" (LF +:+ "commit: 00000")).
  - reflexivity.
  - right. reflexivity.
Defined.

(** C10: the match is the first occurrence of [version:] anywhere in the
    text, also inside a longer word: whatever comes before it, the result
    is the rest of that line, trimmed and without the prefix; for
    [subversion: 1.2.3] that is [1.2.3]. *)
Theorem C10_match_anywhere_in_text (pre line post : string) :
  Strings.Index pre "version:" = None ->
  Strings.IndexByte line "010" = None ->
  post = "" \/ Strings.HasPrefix post LF = true ->
  ExtractVMDriverVersion (pre +:+ "version:" +:+ line +:+ post)
    = Strings.TrimPrefix (Strings.TrimSpace line) Version.VersionPrefix
  /\ ExtractVMDriverVersion "subversion: 1.2.3" = "1.2.3".
Proof.
  intros Hpre Hline Hpost. split.
  - by apply Extract_first_occurrence.
  - reflexivity.
Qed.

Lemma C10_match_anywhere_in_text_witness :
  ExtractVMDriverVersion ("sub" +:+ "version:" +:+ " 1.2.3" +:+ "") = "1.2.3".
Proof.
  etransitivity.
  - apply (C10_match_anywhere_in_text "sub" " 1.2.3" ""); [reflexivity..|by left].
  - reflexivity.
Defined.

Lemma eventsSince_app (w w' : World) (evs : list event) :
  w_log w' = w_log w ++ evs -> eventsSince w w' = evs.
Proof. unfold eventsSince. intros ->. apply drop_app_length. Qed.

(** ** Restart *)

(** C9: [Restart] calls [Stop] first; an error of [Stop] is returned as it
    is, with the state [Stop] left and without a call of [Start]; after a
    successful [Stop], [Start] is called and its result returned. *)
Theorem C9_Restart_stops_then_starts {D S : Type} (drv : Driver D S) (d : D) (s : S) :
  Restart d s
    = match Stop d s with
      | (Err err, s') => (Err err, s')
      | (Ok _, s') => Start d s'
      end
  /\ fst (snd (@Restart D (list call * S) (traced drv) d ([], s)))
    = match Stop d s with
      | (Err _, _) => [CallStop]
      | (Ok _, _) => [CallStop; CallStart]
      end.
Proof.
  unfold Restart, catch, fail. simpl.
  destruct (Stop d s) as [[u|err] s']; simpl; [|done].
  split; [done|]. by destruct (Start d s').
Qed.

(** ** Reconciliation *)

Section Reconcile.

Context `{Externals}.

Lemma download_other (driver destination : string) (w : World) :
  driver <> "docker-machine-driver-kvm2" ->
  download driver destination w = (Ok tt, w).
Proof.
  intros Hne. unfold download.
  destruct (String.eqb_spec driver "docker-machine-driver-kvm2"); done.
Qed.

(** C7: for a driver other than [docker-machine-driver-kvm2] the install
    step returns success and leaves the world as it is: nothing removed,
    fetched or changed, nothing logged; so a reconciliation for such a
    driver adds nothing but its probes to the log and never fetches. *)
Theorem C7_download_only_for_kvm2
        (driver destination : string) (minikubeVersion : Semver.Version)
        (w : World) :
  driver <> "docker-machine-driver-kvm2" ->
  download driver destination w = (Ok tt, w)
  /\ (let w' := snd (InstallOrUpdate driver destination minikubeVersion w) in
      w_fs w' = w_fs w
      /\ (w' = add_event (EvLookPath driver) w \/ w' = probeWorld driver w)
      /\ forall src dst, EvFetch src dst ∉ eventsSince w w').
Proof.
  intros Hne. split; [by apply download_other|].
  assert (let w' := snd (InstallOrUpdate driver destination minikubeVersion w) in
          w' = add_event (EvLookPath driver) w \/ w' = probeWorld driver w) as Hw.
  { unfold InstallOrUpdate, catch, Exec.LookPath, Exec.Output, probeWorld.
    simpl. destruct (w_lookPath w driver); simpl.
    - destruct (w_run _ driver ["version"]); simpl.
      + repeat case_match; rewrite ?download_other by done; simpl; auto.
      + rewrite download_other by done. auto.
    - rewrite download_other by done. auto. }
  simpl in *. unfold eventsSince.
  destruct Hw as [-> | ->]; unfold probeWorld; simpl;
    (split; [done|split; [auto|]]); intros src dst;
    rewrite <- ?app_assoc, drop_app_length; simpl;
    rewrite ?not_elem_of_cons; repeat split; try done; apply not_elem_of_nil.
Qed.

Lemma download_kvm2_fetches (destination : string) (w : World) :
  EvFetch driverKVMDownloadURL
          (Filepath.Join [destination; "docker-machine-driver-kvm2"])
    ∈ eventsSince w (snd (download "docker-machine-driver-kvm2" destination w)).
Proof.
  unfold download, eventsSince. simpl.
  set (target := Filepath.Join [destination; "docker-machine-driver-kvm2"]).
  unfold bind, catch, Out.T, emit, wrapErr, extern, Os.Remove, Os.Chmod, syscall.
  simpl.
  repeat (case_match; simpl in *; simplify_eq); world_simpl;
    rewrite <- ?app_assoc, drop_app_length; simpl;
    rewrite !elem_of_cons; auto 10.
Qed.

(** Between two versions without pre-release, [LT] is the lexicographic
    order on major, minor and patch. *)
Lemma LT_release (v o : Semver.Version) :
  Semver.Pre v = [] -> Semver.Pre o = [] ->
  Semver.LT v o = true <->
  (Semver.Major v < Semver.Major o
   \/ (Semver.Major v = Semver.Major o
       /\ (Semver.Minor v < Semver.Minor o
           \/ (Semver.Minor v = Semver.Minor o
               /\ Semver.Patch v < Semver.Patch o))))%Z.
Proof.
  intros Hv Ho. unfold Semver.LT. rewrite Z.eqb_eq.
  unfold Semver.Compare. rewrite Hv, Ho.
  repeat match goal with
         | |- context [Z.eqb ?a ?b] => destruct (Z.eqb_spec a b)
         | |- context [Z.gtb ?a ?b] => destruct (Z.gtb_spec a b)
         end; cbn [negb]; lia.
Qed.

(** C1: once the driver is found and its [version] command has run, the
    extracted token decides.  An empty token installs; a token that does
    not parse returns the parse error, wrapped, and leaves the world as
    the probes left it; a version below the minimum installs; any other
    version returns success and leaves the world as the probes left it.
    With the minimum 1.0.0: [0.9.9] installs, [1.0.0] and [1.0.1] do
    not, [abc] is an error and no install.  Below is the order of
    semantic versions, for releases the lexicographic one.  For the
    supported driver, installing calls the fetcher. *)
Theorem C1_InstallOrUpdate_decides_by_version
        (driver destination : string) (minikubeVersion : Semver.Version)
        (w : World) (found output : string) :
  w_lookPath w driver = Ok found ->
  w_run w driver ["version"] = Ok output ->
  let v := ExtractVMDriverVersion output in
  let wp := probeWorld driver w in
  (v = "" ->
   InstallOrUpdate driver destination minikubeVersion w
     = download driver destination wp)
  /\ (forall err, v <> "" -> Semver.Make v = Err err ->
      InstallOrUpdate driver destination minikubeVersion w
        = (Err (Wrap err "can't parse driver version"), wp))
  /\ (forall pv, v <> "" -> Semver.Make v = Ok pv ->
      Semver.LT pv minikubeVersion = true ->
      InstallOrUpdate driver destination minikubeVersion w
        = download driver destination wp)
  /\ (forall pv, v <> "" -> Semver.Make v = Ok pv ->
      Semver.LT pv minikubeVersion = false ->
      InstallOrUpdate driver destination minikubeVersion w = (Ok tt, wp))
  /\ (v = "0.9.9" ->
      InstallOrUpdate driver destination Sample.v100 w
        = download driver destination wp)
  /\ (v = "1.0.0" ->
      InstallOrUpdate driver destination Sample.v100 w = (Ok tt, wp))
  /\ (v = "1.0.1" ->
      InstallOrUpdate driver destination Sample.v100 w = (Ok tt, wp))
  /\ (v = "abc" ->
      exists err,
        InstallOrUpdate driver destination Sample.v100 w
          = (Err (Wrap err "can't parse driver version"), wp))
  /\ (forall pv, Semver.Pre pv = [] -> Semver.Pre minikubeVersion = [] ->
      Semver.LT pv minikubeVersion = true <->
      (Semver.Major pv < Semver.Major minikubeVersion
       \/ (Semver.Major pv = Semver.Major minikubeVersion
           /\ (Semver.Minor pv < Semver.Minor minikubeVersion
               \/ (Semver.Minor pv = Semver.Minor minikubeVersion
                   /\ Semver.Patch pv < Semver.Patch minikubeVersion))))%Z)
  /\ EvFetch driverKVMDownloadURL
             (Filepath.Join [destination; "docker-machine-driver-kvm2"])
       ∈ eventsSince wp
           (snd (download "docker-machine-driver-kvm2" destination wp)).
Proof.
  intros Hlook Hrun v wp.
  assert (forall minV,
            InstallOrUpdate driver destination minV w
            = if Nat.eqb (String.length v) 0 then download driver destination wp
              else match Semver.Make v with
                   | Err err => (Err (Wrap err "can't parse driver version"), wp)
                   | Ok pv => if Semver.LT pv minV
                              then download driver destination wp
                              else (Ok tt, wp)
                   end) as Hrun'.
  { intros minV. unfold InstallOrUpdate, catch, Exec.LookPath, Exec.Output.
    rewrite Hlook. simpl. rewrite Hrun. fold v. fold wp.
    repeat case_match; done. }
  assert (forall s : string, s <> "" -> Nat.eqb (String.length s) 0 = false)
    as Hlen by (by intros [|??]).
  repeat split.
  - intros Hv. by rewrite Hrun', Hv.
  - intros err Hne Hmake. by rewrite Hrun', Hlen, Hmake.
  - intros pv Hne Hmake Hlt. by rewrite Hrun', Hlen, Hmake, Hlt.
  - intros pv Hne Hmake Hlt. by rewrite Hrun', Hlen, Hmake, Hlt.
  - intros Hv. by rewrite Hrun', Hv.
  - intros Hv. by rewrite Hrun', Hv.
  - intros Hv. by rewrite Hrun', Hv.
  - intros Hv. rewrite Hrun', Hv. by eexists.
  - by apply LT_release.
  - by apply LT_release.
  - apply download_kvm2_fetches.
Qed.

End Reconcile.

Lemma C1_InstallOrUpdate_decides_by_version_witness :
  @InstallOrUpdate Sample.externals Sample.kvm2 "/usr/local/bin" Sample.v100
                   outdated
    = @download Sample.externals Sample.kvm2 "/usr/local/bin"
                (probeWorld Sample.kvm2 outdated).
Proof.
  destruct (@C1_InstallOrUpdate_decides_by_version Sample.externals
              Sample.kvm2 "/usr/local/bin" Sample.v100 outdated
              "/usr/local/bin/docker-machine-driver-kvm2"
              ("version: v0.9.9" +:+ LF +:+ "commit: 1")
              eq_refl eq_refl) as (_ & _ & _ & _ & H099 & _).
  apply H099. reflexivity.
Defined.


Lemma C7_download_only_for_kvm2_witness :
  @download Sample.externals "docker-machine-driver-hyperkit" "/usr/local/bin"
            Sample.w0
    = (Ok tt, Sample.w0).
Proof.
  apply (@C7_download_only_for_kvm2 Sample.externals
           "docker-machine-driver-hyperkit" "/usr/local/bin" Sample.v100
           Sample.w0).
  discriminate.
Defined.

(** ** Raw disk image creation *)

Lemma Close_frame (fd : nat) (w : World) :
  let w' := (Os.Close fd w).2 in
  w_fs w' = w_fs w /\ w_log w' = w_log w ++ [EvClose fd]
  /\ w_uid w' = w_uid w /\ w_egid w' = w_egid w /\ w_fault w' = w_fault w.
Proof.
  unfold Os.Close. world_simpl. repeat case_match; world_simpl; done.
Qed.

Section RawDisk.

Context `{Externals}.

Lemma createRawDiskImage_outcome (sshKeyPath diskPath : string)
      (diskSizeMb : Z) (w : World) :
  rawDiskOutcome sshKeyPath diskPath diskSizeMb w
    (createRawDiskImage sshKeyPath diskPath diskSizeMb w).
Proof.
  unfold createRawDiskImage, bind, wrapErr, extern, defer, ret.
  world_simpl.
  destruct (mcnutils_MakeDiskImage sshKeyPath (w_fs w)) as [tarBuf|err] eqn:Htar;
    [|by constructor].
  unfold Os.OpenFile_CREATE_EXCL_WRONLY, syscall. world_simpl.
  case_fault; [eapply RawNoOpen; [done..|congruence]|].
  destruct (w_fs w !! diskPath) eqn:Hdisk; [by eapply RawNoOpen|].
  destruct (w_fs w !! Filepath.Dir diskPath) as [dir|] eqn:Hdir;
    [|eapply RawNoOpen; [done..|intros [??] ?; congruence]].
  destruct (i_kind dir) eqn:Hkind; [eapply RawNoOpen; [done..|intros [??] ?; congruence]|].
  set (fd := fresh (dom (w_fds w))).
  assert (forall (err : error) (msg : string) (w1 : World),
            msg ∈ ["seek"; "write tar"; "closing file " +:+ diskPath; "truncate"] ->
            is_Some (w_fs w1 !! diskPath) ->
            rawDiskOutcome sshKeyPath diskPath diskSizeMb w
              (Err (Wrap err msg), (Os.Close fd w1).2)) as Hleft.
  { intros err msg w1 Hmsg Hsome. eapply RawLeftBehind; [done..|].
    by rewrite (proj1 (Close_frame fd w1)). }
  unfold Os.Seek_Start, syscall. world_simpl.
  case_fault.
  { apply Hleft; [set_solver|]. world_simpl. map_simpl. eauto. }
  map_simpl.
  unfold Os.Write, Os.written. world_simpl. map_simpl.
  case_fault.
  { apply Hleft; [set_solver|]. world_simpl. map_simpl. eauto. }
  unfold Os.Close at 1. world_simpl. map_simpl.
  case_fault.
  { apply Hleft; [set_solver|]. world_simpl. map_simpl. eauto. }
  unfold Os.Truncate, syscall. world_simpl.
  case_fault.
  { apply Hleft; [set_solver|]. world_simpl. map_simpl. eauto. }
  destruct (int64 (intMul diskSizeMb 1000000) <? 0)%Z eqn:Hneg.
  { apply Hleft; [set_solver|]. world_simpl. map_simpl. eauto. }
  map_simpl. inode_simpl.
  match goal with
  | |- rawDiskOutcome _ _ _ _ (_, (Os.Close fd ?w1).2) =>
      destruct (Close_frame fd w1) as (Hfs & Hlog & Huid & Hegid & Hflt)
  end.
  eapply (RawBuilt _ _ _ _ tarBuf _ _ fd); [done|done|..].
  - rewrite Hfs. world_simpl. by map_simpl.
  - done.
  - done.
  - lia.
  - intros p Hp. rewrite Hfs. world_simpl.
    by rewrite lookup_insert_ne, lookup_alter_ne, lookup_insert_ne.
  - rewrite Hlog. world_simpl. by rewrite <- !app_assoc.
  - rewrite Huid. done.
  - rewrite Hegid. done.
  - rewrite Hflt. done.
Qed.

Lemma wrapInt_small (z : Z) : isInt z -> wrapInt z = z.
Proof.
  unfold isInt, wrapInt, intSize. intros Hz.
  rewrite Z.mod_small; lia.
Qed.

(** C2, amended: an error of [createRawDiskImage] from building the
    archive or from the exclusive create leaves the file system as it
    was; an error from a later step (seek, write, close, truncate)
    leaves the file that the create made at the disk path. *)
Theorem C2_createRawDiskImage_error_states
        (sshKeyPath diskPath : string) (diskSizeMb : Z) (w w' : World)
        (err : error) :
  createRawDiskImage sshKeyPath diskPath diskSizeMb w = (Err err, w') ->
  (exists cause,
      (err = Wrap cause "make disk image" \/ err = Wrap cause "open")
      /\ w_fs w' = w_fs w)
  \/ (exists cause msg,
        err = Wrap cause msg
        /\ msg ∈ ["seek"; "write tar"; "closing file " +:+ diskPath; "truncate"]
        /\ w_fs w !! diskPath = None
        /\ is_Some (w_fs w' !! diskPath)).
Proof.
  intros Hrun.
  pose proof (createRawDiskImage_outcome sshKeyPath diskPath diskSizeMb w) as Hout.
  rewrite Hrun in Hout. inversion Hout; subst.
  - left. eexists. split; [by left|done].
  - left. eexists. split; [by right|done].
  - right. by eexists _, _.
Qed.

(** C4: when a file is already at the disk path, [createRawDiskImage]
    returns an error and leaves the file system, and so that file, as
    it was; once the archive is built the error is the one of the
    exclusive create, [EEXIST] unless the environment fails the call
    before that. *)
Theorem C4_existing_image_is_not_overwritten
        (sshKeyPath diskPath : string) (diskSizeMb : Z) (w : World)
        (existing : Inode) :
  w_fs w !! diskPath = Some existing ->
  exists err w',
    createRawDiskImage sshKeyPath diskPath diskSizeMb w = (Err err, w')
    /\ w_fs w' = w_fs w
    /\ w_fs w' !! diskPath = Some existing
    /\ (forall tarBuf,
          mcnutils_MakeDiskImage sshKeyPath (w_fs w) = Ok tarBuf ->
          exists cause,
            err = Wrap cause "open"
            /\ (w_fault w (List.length (w_log w ++ [EvB2dTar sshKeyPath])) = None ->
                cause = Errno EEXIST)).
Proof.
  intros Hex.
  pose proof (createRawDiskImage_outcome sshKeyPath diskPath diskSizeMb w) as Hout.
  inversion Hout as [err Htar Heq|tarBuf err w' Htar Hfs Hcause Heq
                     |tarBuf err msg w' Htar Hmsg Hnone Hsome Heq
                     |tarBuf w' i fd Htar Hnone]; try congruence.
  - eexists _, _. split; [done|]. world_simpl.
    repeat split; [done|]. intros tarBuf Htar'. congruence.
  - eexists _, _. split; [done|]. rewrite Hfs.
    repeat split; [done|]. intros tarBuf' _. eexists. split; [done|].
    intros Hflt. apply Hcause; [by eexists|done].
Qed.

(** C8, amended: after a successful build the file at the disk path has
    the size [int64(diskSizeMb*1000000)], the product as Go's [int]
    computes it; that is [diskSizeMb * 1,000,000] bytes whenever the
    product is in the range of a signed 64-bit integer. *)
Theorem C8_size_after_successful_build
        (sshKeyPath diskPath : string) (diskSizeMb : Z) (w w' : World) :
  createRawDiskImage sshKeyPath diskPath diskSizeMb w = (Ok tt, w') ->
  exists i,
    w_fs w' !! diskPath = Some i
    /\ i_size i = int64 (intMul diskSizeMb 1000000)
    /\ (isInt (diskSizeMb * 1000000) ->
        i_size i = (diskSizeMb * 1000000)%Z).
Proof.
  intros Hrun.
  pose proof (createRawDiskImage_outcome sshKeyPath diskPath diskSizeMb w) as Hout.
  rewrite Hrun in Hout. inversion Hout; subst.
  eexists. repeat split; [done..|].
  intros Hrange. unfold int64, intMul in *.
  by rewrite !wrapInt_small in * by (by rewrite ?wrapInt_small).
Qed.

End RawDisk.

(** C2, as the claim has it, fails: when the write fails the function
    returns an error and the file that the create made is still there. *)
Lemma C2_counterexample :
  ~ (forall (E : Externals) (sshKeyPath diskPath : string) (diskSizeMb : Z)
            (w w' : World) (err : error),
       @createRawDiskImage E sshKeyPath diskPath diskSizeMb w = (Err err, w') ->
       w_fs w' !! diskPath = None).
Proof.
  intros Hall.
  specialize (Hall Sample.externals pubkey rawdisk 20000%Z diskFull
                   (@createRawDiskImage Sample.externals pubkey rawdisk 20000
                                        diskFull).2
                   (Wrap (Errno ENOSPC) "write tar")).
  assert (is_Some ((@createRawDiskImage Sample.externals pubkey rawdisk 20000
                                        diskFull).2.(w_fs) !! rawdisk)) as [i Hi]
    by (vm_compute; eauto).
  rewrite Hall in Hi; [done|]. by vm_compute.
Qed.

Lemma C2_createRawDiskImage_error_states_witness :
  is_Some (w_fs (@createRawDiskImage Sample.externals pubkey rawdisk 20000
                                     diskFull).2 !! rawdisk).
Proof.
  destruct (@C2_createRawDiskImage_error_states Sample.externals pubkey rawdisk
              20000%Z diskFull
              (@createRawDiskImage Sample.externals pubkey rawdisk 20000 diskFull).2
              (Wrap (Errno ENOSPC) "write tar"))
    as [(cause & [Herr|Herr] & _)|(cause & msg & _ & _ & _ & Hsome)].
  - by vm_compute.
  - discriminate Herr.
  - discriminate Herr.
  - exact Hsome.
Defined.

Lemma C4_existing_image_is_not_overwritten_witness :
  exists err w',
    @createRawDiskImage Sample.externals pubkey rawdisk 20000 withImage
      = (Err err, w')
    /\ w_fs w' = w_fs withImage
    /\ w_fs w' !! rawdisk
       = Some (Sample.file (Sample.bytesOf "old image") 1000 1000 420).
Proof.
  destruct (@C4_existing_image_is_not_overwritten Sample.externals pubkey rawdisk
              20000%Z withImage
              (Sample.file (Sample.bytesOf "old image") 1000 1000 420))
    as (err & w' & Hrun & Hfs & Hsame & _).
  - by vm_compute.
  - exists err, w'. split; [exact Hrun|]. split; [exact Hfs|exact Hsame].
Defined.

(** C8, as the claim has it, fails: for 18446744073710 MB the product
    wraps around to 448384, the build succeeds, and that is the size. *)
Lemma C8_counterexample :
  ~ (forall (E : Externals) (sshKeyPath diskPath : string) (diskSizeMb : Z)
            (w w' : World),
       isInt diskSizeMb ->
       @createRawDiskImage E sshKeyPath diskPath diskSizeMb w = (Ok tt, w') ->
       exists i, w_fs w' !! diskPath = Some i
                 /\ i_size i = (diskSizeMb * 1000000)%Z).
Proof.
  intros Hall.
  destruct (Hall Sample.externals pubkey rawdisk 18446744073710%Z ready
                 (@createRawDiskImage Sample.externals pubkey rawdisk
                                      18446744073710 ready).2)
    as (i & Hi & Hsize).
  - by vm_compute.
  - by vm_compute.
  - vm_compute in Hi. injection Hi as <-. vm_compute in Hsize. discriminate.
Qed.

Lemma C8_size_after_successful_build_witness :
  exists i,
    w_fs (@createRawDiskImage Sample.externals pubkey rawdisk 20000 ready).2
      !! rawdisk = Some i
    /\ i_size i = 20000000000%Z.
Proof.
  destruct (@C8_size_after_successful_build Sample.externals pubkey rawdisk
              20000%Z ready
              (@createRawDiskImage Sample.externals pubkey rawdisk 20000 ready).2)
    as (i & Hi & _ & Hsize).
  - by vm_compute.
  - exists i. split; [done|]. apply Hsize. by vm_compute.
Defined.

(** ** Ownership *)

Lemma elem_of_entries (fs : FS) (dir name : string) :
  name ∈ Os.entries fs dir <->
  exists p, is_Some (fs !! p) /\ Filepath.Dir p = dir /\ p <> dir
            /\ name = Filepath.Base p.
Proof.
  unfold Os.entries. rewrite list_elem_of_fmap. split.
  - intros (p & -> & Hp). apply list_elem_of_filter in Hp as [[Hdir Hne] Hin].
    apply list_elem_of_fmap in Hin as ([p' i] & -> & Hin).
    apply elem_of_map_to_list in Hin. exists p'. eauto.
  - intros (p & [i Hi] & Hdir & Hne & ->). exists p. split; [done|].
    apply list_elem_of_filter. split; [done|].
    apply list_elem_of_fmap. exists (p, i). split; [done|].
    by apply elem_of_map_to_list.
Qed.

Lemma Chown_ok (name : string) (uid gid : Z) (w w' : World) :
  Os.Chown name uid gid w = (Ok tt, w') ->
  exists i, w_fs w !! name = Some i
            /\ w' = set_fs (insert name (Os.chownInode i uid gid))
                           (add_event (EvChown name uid gid) w).
Proof.
  unfold Os.Chown, syscall. world_simpl. intros Hrun.
  repeat case_match; simplify_eq. eauto.
Qed.

Lemma ownedBy_chown (U G : Z) (fs : FS) (name q : string) (i : Inode) :
  fs !! name = Some i ->
  ownedBy U G fs q ->
  ownedBy U G (<[name := Os.chownInode i U G]> fs) q.
Proof.
  intros Hi (j & Hj & Hu & Hg). unfold ownedBy.
  destruct (decide (name = q)) as [->|Hne].
  - rewrite lookup_insert_eq. eexists. split; [done|]. simplify_eq.
    inode_simpl. split; case_match; done.
  - rewrite lookup_insert_ne by done. eauto.
Qed.

Lemma ownedBy_chown_here (U G : Z) (fs : FS) (name : string) (i : Inode) :
  U <> (-1)%Z -> G <> (-1)%Z ->
  ownedBy U G (<[name := Os.chownInode i U G]> fs) name.
Proof.
  intros HU HG. unfold ownedBy. rewrite lookup_insert_eq. eexists.
  split; [done|]. inode_simpl.
  split; case_match; try done; lia.
Qed.

(** The loop over the entries: what a successful run of it has done. *)
Lemma chownFiles_ok (path : string) (files : list string) (w w' : World) :
  chownFiles path files w = (Ok tt, w') ->
  (forall q, is_Some (w_fs w !! q) <-> is_Some (w_fs w' !! q))
  /\ w_log w' = w_log w ++
       ((fun f => EvChown (Filepath.Join [path; f]) (w_uid w) (w_egid w)) <$> files)
  /\ w_uid w' = w_uid w /\ w_egid w' = w_egid w /\ w_fault w' = w_fault w
  /\ (forall q, ownedBy (w_uid w) (w_egid w) (w_fs w) q ->
                ownedBy (w_uid w) (w_egid w) (w_fs w') q)
  /\ (w_uid w <> (-1)%Z -> w_egid w <> (-1)%Z ->
      forall f, f ∈ files ->
                ownedBy (w_uid w) (w_egid w) (w_fs w') (Filepath.Join [path; f])).
Proof.
  revert w. induction files as [|f files IH]; intros w Hrun.
  - cbn in Hrun. unfold ret in Hrun. simplify_eq. rewrite app_nil_r.
    split_and!; try done. intros _ _ f Hf. by apply elem_of_nil in Hf.
  - cbn [chownFiles] in Hrun. unfold bind, wrapErr, Os.Getuid, Os.Getegid in Hrun.
    destruct (Os.Chown _ _ _ w) as [[[]|e] w1] eqn:Hchown; [|done].
    apply Chown_ok in Hchown as (i & Hi & ->).
    apply IH in Hrun as (Hex & Hlog & Huid & Hegid & Hflt & Hkeep & Hset).
    world_simpl.
    split_and!; try done.
    + intros q. rewrite <- Hex.
      destruct (decide (Filepath.Join [path; f] = q)) as [<-|].
      * rewrite lookup_insert_eq. split; eauto.
      * by rewrite lookup_insert_ne.
    + rewrite Hlog. by rewrite <- app_assoc.
    + intros q Hq. apply Hkeep. by apply ownedBy_chown.
    + intros HU HG g Hg. apply elem_of_cons in Hg as [->|Hg].
      * apply Hkeep. by apply ownedBy_chown_here.
      * by apply Hset.
Qed.

Lemma fixPermissions_ok (path : string) (w w' : World) :
  fixPermissions path w = (Ok tt, w') ->
  (forall q, is_Some (w_fs w !! q) <-> is_Some (w_fs w' !! q))
  /\ (exists files,
        w_log w' = w_log w ++
          EvChown path (w_uid w) (w_egid w) :: EvReadDir path ::
          ((fun f => EvChown (Filepath.Join [path; f]) (w_uid w) (w_egid w))
             <$> files))
  /\ (w_uid w <> (-1)%Z -> w_egid w <> (-1)%Z ->
      ownedBy (w_uid w) (w_egid w) (w_fs w') path
      /\ forall name, name ∈ Os.entries (w_fs w) path ->
           ownedBy (w_uid w) (w_egid w) (w_fs w')
                   (Filepath.Join [path; name])).
Proof.
  unfold fixPermissions, bind, wrapErr, Glog.Infof, ret, Os.Getuid, Os.Getegid.
  intros Hrun.
  destruct (Os.Chown _ _ _ w) as [[[]|e] w1] eqn:Hchown; [|done].
  apply Chown_ok in Hchown as (i & Hi & ->).
  unfold Ioutil.ReadDir, syscall in Hrun. world_simpl.
  case_fault_in Hrun; [done|].
  rewrite lookup_insert_eq in Hrun. inode_simpl.
  destruct (i_kind i) eqn:Hkind; [done|].
  apply chownFiles_ok in Hrun as (Hex & Hlog & Huid & Hegid & Hflt & Hkeep & Hset).
  world_simpl.
  assert (forall q, is_Some (w_fs w !! q)
                    <-> is_Some (<[path:=Os.chownInode i (w_uid w) (w_egid w)]> (w_fs w) !! q))
    as Hdom.
  { intros q. destruct (decide (path = q)) as [<-|].
    - rewrite lookup_insert_eq. split; eauto.
    - by rewrite lookup_insert_ne. }
  split; [|split].
  - intros q. by rewrite Hdom, Hex.
  - eexists. rewrite Hlog. rewrite <- !app_assoc. done.
  - intros HU HG. split.
    + apply Hkeep. by apply ownedBy_chown_here.
    + intros name Hname. apply Hset; [done..|].
      rewrite merge_sort_Permutation.
      apply elem_of_entries in Hname as (p & Hp & Hdir & Hne & ->).
      apply elem_of_entries. exists p. by rewrite <- Hdom.
Qed.

(** C3, as the claim has it, fails: in a process whose effective user is
    root and whose real user is 1000, the directory belongs to user 1000
    after the fix, not to the effective user. *)
Lemma C3_counterexample :
  ~ (forall (path : string) (w w' : World),
       fixPermissions path w = (Ok tt, w') ->
       ownedBy (w_euid w) (w_egid w) (w_fs w') path).
Proof.
  intros Hall.
  destruct (Hall "/store/machines/m" ready (fixPermissions "/store/machines/m" ready).2)
    as (i & Hi & Huid & _).
  - by vm_compute.
  - vm_compute in Hi. injection Hi as <-. vm_compute in Huid. discriminate.
Qed.

(** C3, amended: when [fixPermissions] returns success, the directory and
    every entry of it belong to the real user of the process ([getuid])
    and to its effective group ([getegid]). *)
Theorem C3_fixPermissions_real_user_effective_group
        (path : string) (w w' : World) :
  w_uid w <> (-1)%Z -> w_egid w <> (-1)%Z ->
  fixPermissions path w = (Ok tt, w') ->
  ownedBy (w_uid w) (w_egid w) (w_fs w') path
  /\ forall name, name ∈ Os.entries (w_fs w) path ->
       ownedBy (w_uid w) (w_egid w) (w_fs w') (Filepath.Join [path; name]).
Proof.
  intros HU HG Hrun. apply fixPermissions_ok in Hrun as (_ & _ & Hown). auto.
Qed.

Lemma C3_fixPermissions_real_user_effective_group_witness :
  ownedBy 1000 1000 (w_fs (fixPermissions "/store/machines/m" ready).2)
          "/store/machines/m"
  /\ ownedBy 1000 1000 (w_fs (fixPermissions "/store/machines/m" ready).2)
             "/store/machines/m/id_rsa.pub".
Proof.
  destruct (C3_fixPermissions_real_user_effective_group "/store/machines/m"
              ready (fixPermissions "/store/machines/m" ready).2)
    as [Hdir Hfiles].
  - by vm_compute.
  - by vm_compute.
  - by vm_compute.
  - split; [exact Hdir|].
    apply (Hfiles "id_rsa.pub"). vm_compute. apply list_elem_of_here.
Defined.

(** ** Provisioning twice *)

Lemma builds_app (diskPath : string) (evs1 evs2 : list event) :
  builds diskPath (evs1 ++ evs2) = builds diskPath evs1 + builds diskPath evs2.
Proof. unfold builds. by rewrite filter_app, length_app. Qed.

Lemma builds_cons_other (diskPath : string) (e : event) (evs : list event) :
  e <> EvOpen diskPath -> builds diskPath (e :: evs) = builds diskPath evs.
Proof. intros He. unfold builds. by rewrite filter_cons_False. Qed.

Lemma builds_cons_open (diskPath : string) (evs : list event) :
  builds diskPath (EvOpen diskPath :: evs) = S (builds diskPath evs).
Proof. unfold builds. by rewrite filter_cons_True. Qed.

Lemma builds_chowns (diskPath : string) (f : string -> string) (uid gid : Z)
      (files : list string) :
  builds diskPath ((fun x => EvChown (f x) uid gid) <$> files) = 0.
Proof.
  induction files as [|x files IH]; [done|].
  rewrite fmap_cons. by rewrite builds_cons_other.
Qed.

Lemma builds_skipEvents (d : BaseDriver) (url : string) :
  builds (GetDiskPath d) (skipEvents d url) = 0.
Proof. unfold skipEvents. by rewrite !builds_cons_other. Qed.

Lemma IsNotExist_fault (f : fault) : IsNotExist (Errno (errnoOf f)) = false.
Proof. by destruct f. Qed.

Section Provision.

Context `{Externals}.

Variables (d : BaseDriver) (boot2dockerURL : string) (diskSize : Z).

(** With the image in place after the first two steps, the rest of
    [MakeDiskImage] is one [stat]. *)
Lemma MakeDiskImage_skips (w : World) (fs' : FS) :
  staged d boot2dockerURL (w_fs w) fs' ->
  is_Some (fs' !! GetDiskPath d) ->
  exists w',
    MakeDiskImage d boot2dockerURL diskSize w = (Ok tt, w')
    /\ w_fs w' = fs'
    /\ w_log w' = w_log w ++ skipEvents d boot2dockerURL.
Proof.
  intros (fs1 & Hiso & Hkey) [i Hi].
  unfold MakeDiskImage, bind, wrapErr, extern, catch, Glog.Infof, ret.
  world_simpl. rewrite Hiso. world_simpl. rewrite Hkey.
  unfold Os.Stat, syscall. world_simpl.
  case_fault.
  - rewrite IsNotExist_fault. eexists. split; [done|]. world_simpl.
    split; [done|]. by rewrite <- !app_assoc.
  - rewrite Hi. eexists. split; [done|]. world_simpl.
    split; [done|]. by rewrite <- !app_assoc.
Qed.

(** A successful call that created the image: the image is there
    afterwards, and the call created it once. *)
Lemma MakeDiskImage_built (w w1 : World) :
  MakeDiskImage d boot2dockerURL diskSize w = (Ok tt, w1) ->
  EvOpen (GetDiskPath d) ∈ eventsSince w w1 ->
  is_Some (w_fs w1 !! GetDiskPath d)
  /\ exists evs, w_log w1 = w_log w ++ evs /\ builds (GetDiskPath d) evs = 1.
Proof.
  unfold MakeDiskImage, bind, wrapErr, extern, catch, Glog.Infof, ret.
  world_simpl.
  destruct (b2d_CopyIsoToMachineDir _ _ _ _) as [[[]|e1] fs1]; [|done].
  world_simpl.
  destruct (ssh_GenerateSSHKey _ _) as [[[]|e2] fs2]; [|done].
  unfold Os.Stat, syscall. world_simpl.
  set (evs := [EvCopyIso (StorePath d) boot2dockerURL (MachineName d);
               EvGenerateSSHKey (GetSSHKeyPath d); EvStat (GetDiskPath d)]).
  assert (EvOpen (GetDiskPath d) ∉ evs) as Hnot.
  { unfold evs. rewrite !not_elem_of_cons. split_and!; try done.
    apply not_elem_of_nil. }
  case_fault.
  { rewrite IsNotExist_fault. intros Hrun Hopen. simplify_eq.
    erewrite eventsSince_app in Hopen; [done|].
    world_simpl. by rewrite <- !app_assoc. }
  destruct (fs2 !! GetDiskPath d) eqn:Hdisk.
  { intros Hrun Hopen. simplify_eq.
    erewrite eventsSince_app in Hopen; [done|].
    world_simpl. by rewrite <- !app_assoc. }
  cbn [IsNotExist].
  match goal with
  | |- context [createRawDiskImage ?k ?p ?s ?w0] =>
      pose proof (createRawDiskImage_outcome k p s w0) as Hout;
      destruct (createRawDiskImage k p s w0) as [rc wc]
  end.
  inversion Hout as [| |
                     |tarBuf w' i fd Htar Hnone Hsome Hkind Hsize Hpos Hframe
                        Hlog Huid Hegid Hflt]; subst; try done.
  destruct (fixPermissions _ wc) as [[[]|ef] wf] eqn:Hfix; [|done].
  intros Hrun _. simplify_eq.
  apply fixPermissions_ok in Hfix as (Hex & (files & Hlogf) & _).
  split; [apply Hex; eauto|].
  eexists. split.
  { rewrite Hlogf, Hlog. world_simpl. rewrite <- !app_assoc. done. }
  cbn [app].
  repeat (rewrite builds_cons_other by done).
  rewrite builds_cons_open.
  repeat (rewrite builds_cons_other by done).
  by rewrite builds_chowns.
Qed.

(** C5: a call of [MakeDiskImage] that finds a file at the disk path
    once the ISO is staged and the key generated returns success,
    having done nothing after those two steps but the [stat]: no build,
    no ownership fix.  So after a successful call that built the image,
    a second call whose first two steps succeed and leave the image
    alone returns success without building, and the two calls together
    have built the image once. *)
Theorem C5_MakeDiskImage_builds_once (w w1 : World) (fs' : FS) :
  MakeDiskImage d boot2dockerURL diskSize w = (Ok tt, w1) ->
  EvOpen (GetDiskPath d) ∈ eventsSince w w1 ->
  staged d boot2dockerURL (w_fs w1) fs' ->
  fs' !! GetDiskPath d = w_fs w1 !! GetDiskPath d ->
  (forall (v : World) (fsv : FS),
      staged d boot2dockerURL (w_fs v) fsv ->
      is_Some (fsv !! GetDiskPath d) ->
      exists v',
        MakeDiskImage d boot2dockerURL diskSize v = (Ok tt, v')
        /\ w_fs v' = fsv
        /\ eventsSince v v' = skipEvents d boot2dockerURL)
  /\ exists w2,
      MakeDiskImage d boot2dockerURL diskSize w1 = (Ok tt, w2)
      /\ w_fs w2 = fs'
      /\ eventsSince w1 w2 = skipEvents d boot2dockerURL
      /\ builds (GetDiskPath d) (eventsSince w1 w2) = 0
      /\ builds (GetDiskPath d) (eventsSince w w2) = 1.
Proof.
  intros Hfirst Hopen Hstaged Hkeep. split.
  { intros v fsv Hv Hthere.
    destruct (MakeDiskImage_skips v fsv Hv Hthere) as (v' & Hrun & Hfs & Hlog).
    exists v'. split_and!; try done. by apply eventsSince_app. }
  destruct (MakeDiskImage_built w w1 Hfirst Hopen)
    as (Hthere & evs & Hlog1 & Hone).
  destruct (MakeDiskImage_skips w1 fs' Hstaged) as (w2 & Hsecond & Hfs & Hlog2).
  { by rewrite Hkeep. }
  exists w2. split_and!; try done.
  - by apply eventsSince_app.
  - rewrite (eventsSince_app _ _ _ Hlog2). apply builds_skipEvents.
  - erewrite (eventsSince_app w w2).
    2: { rewrite Hlog2, Hlog1. by rewrite <- app_assoc. }
    by rewrite builds_app, Hone, builds_skipEvents.
Qed.

End Provision.

Lemma C5_MakeDiskImage_builds_once_witness :
  exists w2,
    @MakeDiskImage Sample.externals Sample.d "url" 20000 provisioned = (Ok tt, w2)
    /\ eventsSince provisioned w2 = skipEvents Sample.d "url"
    /\ builds (GetDiskPath Sample.d) (eventsSince Sample.w0 w2) = 1.
Proof.
  destruct (@C5_MakeDiskImage_builds_once Sample.externals Sample.d "url"
              20000%Z Sample.w0 provisioned provisionedAgain)
    as (_ & w2 & Hrun & _ & Hevs & _ & Hone).
  - vm_compute. reflexivity.
  - vm_compute. do 4 apply list_elem_of_further. apply list_elem_of_here.
  - exists (@b2d_CopyIsoToMachineDir Sample.externals "/store" "url" "m"
              (w_fs provisioned)).2.
    split; vm_compute; reflexivity.
  - vm_compute. reflexivity.
  - exists w2. split; [exact Hrun|]. split; [exact Hevs|exact Hone].
Defined.

(** * Further properties *)

(** ** The install step *)

Lemma Remove_frame (name : string) (w : World) :
  let w' := (Os.Remove name w).2 in
  w_log w' = w_log w ++ [EvRemove name]
  /\ w_fault w' = w_fault w /\ w_fds w' = w_fds w
  /\ (w_fs w' = w_fs w \/ w_fs w' = delete name (w_fs w)).
Proof.
  unfold Os.Remove, syscall. world_simpl.
  repeat case_match; world_simpl; auto.
Qed.

Lemma Chmod_log (name : string) (mode : Z) (w : World) :
  w_log (Os.Chmod name mode w).2 = w_log w ++ [EvChmod name mode].
Proof.
  unfold Os.Chmod, syscall. world_simpl. by repeat case_match.
Qed.

Section Install.

Context `{Externals}.

(** [download] for the supported driver, from the call of the fetcher on. *)
Lemma download_kvm2_unfold (destination : string) (w : World) :
  download "docker-machine-driver-kvm2" destination w
  = let target := targetOf destination in
    let w1 := add_event (EvFetch driverKVMDownloadURL target)
                        (beforeFetch destination w) in
    match getter_Get driverKVMDownloadURL target (w_fs (beforeFetch destination w)) with
    | (Err e, fs') =>
        (Err (Wrap e ("can't download driver docker-machine-driver-kvm2 from: "
                      +:+ driverKVMDownloadURL)),
         set_fs (fun _ => fs') w1)
    | (Ok _, fs') =>
        match Os.Chmod target 511 (set_fs (fun _ => fs') w1) with
        | (Ok _, w2) => (Ok tt, w2)
        | (Err e, w2) => (Err (Wrap e "chmod error"), w2)
        end
    end.
Proof.
  unfold download, beforeFetch, targetOf.
  change (String.eqb "docker-machine-driver-kvm2" "docker-machine-driver-kvm2")
    with true. cbn [negb].
  unfold bind, catch, Out.T, emit, wrapErr, extern, ret. cbn zeta.
  change ("Downloading driver " +:+ "docker-machine-driver-kvm2" +:+ ":")
    with "Downloading driver docker-machine-driver-kvm2:".
  change ("can't download driver " +:+ "docker-machine-driver-kvm2" +:+ " from: "
          +:+ driverKVMDownloadURL)
    with ("can't download driver docker-machine-driver-kvm2 from: "
          +:+ driverKVMDownloadURL).
  destruct (Os.Remove _ _) as [rr wr]. cbn [snd]. world_simpl.
  destruct (getter_Get _ _ _) as [[[]|e] fs']; [|done].
  by destruct (Os.Chmod _ _ _) as [[[]|e] w2].
Qed.

Lemma beforeFetch_log (destination : string) (w : World) :
  w_log (beforeFetch destination w)
  = w_log w ++ [EvOut "Downloading driver docker-machine-driver-kvm2:";
                EvRemove (targetOf destination)].
Proof.
  unfold beforeFetch.
  destruct (Remove_frame (targetOf destination)
              (add_event (EvOut "Downloading driver docker-machine-driver-kvm2:") w))
    as (Hlog & _).
  rewrite Hlog. world_simpl. by rewrite <- app_assoc.
Qed.

(** X4: when the fetcher fails, [download] returns its error wrapped with
    the driver name and the source, the file system is as the fetcher
    left it, and the permission bits are never touched: the events are
    the console line, the removal and the fetch. *)
Theorem X4_download_fetch_failure (destination : string) (w : World)
        (e : error) (fs' : FS) :
  getter_Get driverKVMDownloadURL (targetOf destination)
             (w_fs (beforeFetch destination w)) = (Err e, fs') ->
  exists w',
    download "docker-machine-driver-kvm2" destination w
    = (Err (Wrap e ("can't download driver docker-machine-driver-kvm2 from: "
                    +:+ driverKVMDownloadURL)), w')
    /\ w_fs w' = fs'
    /\ eventsSince w w'
       = [EvOut "Downloading driver docker-machine-driver-kvm2:";
          EvRemove (targetOf destination);
          EvFetch driverKVMDownloadURL (targetOf destination)].
Proof.
  intros Hget. rewrite download_kvm2_unfold. cbn zeta. rewrite Hget.
  eexists. split; [done|]. world_simpl. split; [done|].
  apply eventsSince_app. world_simpl. rewrite beforeFetch_log.
  by rewrite <- app_assoc.
Qed.

(** X5: when the fetcher succeeds and has put a file at the target, and
    the environment lets the [chmod] through, [download] returns success
    and the file has mode 0777, everything else being as the fetcher left
    it; when the fetcher reports success without a file at the target,
    [download] fails with the wrapped [chmod] error. *)
Theorem X5_download_makes_driver_executable (destination : string) (w : World)
        (fs' : FS) :
  getter_Get driverKVMDownloadURL (targetOf destination)
             (w_fs (beforeFetch destination w)) = (Ok tt, fs') ->
  w_fault w (List.length (w_log w) + 3) = None ->
  match fs' !! targetOf destination with
  | Some i =>
      exists w',
        download "docker-machine-driver-kvm2" destination w = (Ok tt, w')
        /\ w_fs w' = <[targetOf destination := Os.chmodInode i 511]> fs'
        /\ (exists i', w_fs w' !! targetOf destination = Some i'
                       /\ i_mode i' = 511%Z /\ i_data i' = i_data i
                       /\ i_uid i' = i_uid i /\ i_gid i' = i_gid i)
  | None =>
      exists w',
        download "docker-machine-driver-kvm2" destination w
        = (Err (Wrap (Errno ENOENT) "chmod error"), w')
        /\ w_fs w' = fs'
  end.
Proof.
  intros Hget Hflt. rewrite download_kvm2_unfold. cbn zeta. rewrite Hget.
  unfold Os.Chmod, syscall. world_simpl.
  assert (w_fault (beforeFetch destination w) = w_fault w) as ->.
  { unfold beforeFetch. by destruct (Remove_frame (targetOf destination)
      (add_event (EvOut "Downloading driver docker-machine-driver-kvm2:") w))
      as (_ & -> & _). }
  rewrite beforeFetch_log, !length_app. cbn [List.length].
  replace (List.length (w_log w) + 2 + 1) with (List.length (w_log w) + 3) by lia.
  rewrite Hflt.
  destruct (fs' !! targetOf destination) as [i|] eqn:Hi.
  - eexists. split; [done|]. world_simpl. split; [done|].
    rewrite lookup_insert_eq. eexists. by split.
  - eexists. by split.
Qed.

(** X6: a stale regular file at the target has no influence on the
    install: unless the environment fails the removal, [download] does
    what it does in the world without that file. *)
Theorem X6_download_ignores_stale_file (destination : string) (w : World)
        (stale : Inode) :
  w_fs w !! targetOf destination = Some stale ->
  i_kind stale = KFile ->
  w_fault w (List.length (w_log w) + 1) = None ->
  download "docker-machine-driver-kvm2" destination w
  = download "docker-machine-driver-kvm2" destination
             (set_fs (delete (targetOf destination)) w).
Proof.
  intros Hstale Hkind Hflt. rewrite !download_kvm2_unfold.
  assert (beforeFetch destination w
          = beforeFetch destination (set_fs (delete (targetOf destination)) w))
    as <-; [|done].
  unfold beforeFetch, Os.Remove, syscall. world_simpl.
  rewrite length_app. cbn [List.length]. rewrite Hflt, Hstale, Hkind.
  rewrite lookup_delete_eq. cbn [snd]. by world_simpl.
Qed.

(** The events of [download] are install events, whatever the driver. *)
Lemma download_events (driver destination : string) (w : World) :
  exists evs,
    w_log (download driver destination w).2 = w_log w ++ evs
    /\ Forall installEvent evs.
Proof.
  destruct (String.eqb_spec driver "docker-machine-driver-kvm2") as [->|Hne].
  - rewrite download_kvm2_unfold. cbn zeta.
    destruct (getter_Get _ _ _) as [[[]|e] fs'].
    + exists [EvOut "Downloading driver docker-machine-driver-kvm2:";
              EvRemove (targetOf destination);
              EvFetch driverKVMDownloadURL (targetOf destination);
              EvChmod (targetOf destination) 511].
      split; [|by repeat constructor].
      match goal with
      | |- context [Os.Chmod ?p ?m ?w0] =>
          pose proof (Chmod_log p m w0) as Hlog;
          destruct (Os.Chmod p m w0) as [[[]|e] w2]
      end; cbn [snd] in *; rewrite Hlog; world_simpl;
        rewrite beforeFetch_log; by rewrite <- !app_assoc.
    + eexists. split.
      * cbn [snd]. world_simpl. rewrite beforeFetch_log.
        by rewrite <- !app_assoc.
      * by repeat constructor.
  - rewrite download_other by done. exists []. by rewrite app_nil_r.
Qed.

(** X1: a driver that is not on the path is installed without being run:
    [InstallOrUpdate] is [download] after the one lookup, and no command
    is executed, whatever the minimum version. *)
Theorem X1_InstallOrUpdate_missing_driver
        (driver destination : string) (minikubeVersion : Semver.Version)
        (w : World) (err : error) :
  w_lookPath w driver = Err err ->
  InstallOrUpdate driver destination minikubeVersion w
  = download driver destination (add_event (EvLookPath driver) w)
  /\ forall name args,
       EvExec name args
         ∉ eventsSince w (InstallOrUpdate driver destination minikubeVersion w).2.
Proof.
  intros Hlook.
  assert (InstallOrUpdate driver destination minikubeVersion w
          = download driver destination (add_event (EvLookPath driver) w)) as Heq.
  { unfold InstallOrUpdate, catch, Exec.LookPath. by rewrite Hlook. }
  split; [done|]. intros name args. rewrite Heq.
  destruct (download_events driver destination (add_event (EvLookPath driver) w))
    as (evs & Hlog & Hevs).
  rewrite (eventsSince_app _ _ (EvLookPath driver :: evs))
    by (rewrite Hlog; world_simpl; by rewrite <- app_assoc).
  rewrite not_elem_of_cons. split; [done|].
  intros Hin. rewrite Forall_forall in Hevs. by apply Hevs in Hin.
Qed.

(** The two errors of [download]. *)
Lemma download_errors (driver destination : string) (w w' : World) (err : error) :
  download driver destination w = (Err err, w') ->
  driver = "docker-machine-driver-kvm2"
  /\ exists cause,
       err = Wrap cause ("can't download driver docker-machine-driver-kvm2 from: "
                         +:+ driverKVMDownloadURL)
       \/ err = Wrap cause "chmod error".
Proof.
  destruct (String.eqb_spec driver "docker-machine-driver-kvm2") as [->|Hne].
  - rewrite download_kvm2_unfold. cbn zeta. intros Hrun. split; [done|].
    destruct (getter_Get _ _ _) as [[[]|e] fs'].
    + destruct (Os.Chmod _ _ _) as [[[]|e] w2]; [done|].
      simplify_eq. eauto.
    + simplify_eq. eauto.
  - by rewrite download_other.
Qed.

(** X2: [InstallOrUpdate] has three errors and no other: a version that
    does not parse, which ends the call after the two probes, and, for
    the supported driver only, a failed fetch or a failed [chmod].  That
    the driver is not found, or that its [version] command fails, is
    never an error. *)
Theorem X2_InstallOrUpdate_errors
        (driver destination : string) (minikubeVersion : Semver.Version)
        (w w' : World) (err : error) :
  InstallOrUpdate driver destination minikubeVersion w = (Err err, w') ->
  (exists cause found output,
      err = Wrap cause "can't parse driver version"
      /\ w_lookPath w driver = Ok found
      /\ w_run w driver ["version"] = Ok output
      /\ Semver.Make (ExtractVMDriverVersion output) = Err cause
      /\ w' = probeWorld driver w)
  \/ (driver = "docker-machine-driver-kvm2"
      /\ exists cause,
           err = Wrap cause ("can't download driver docker-machine-driver-kvm2 from: "
                             +:+ driverKVMDownloadURL)
           \/ err = Wrap cause "chmod error").
Proof.
  unfold InstallOrUpdate, catch, Exec.LookPath, Exec.Output, fail, ret.
  destruct (w_lookPath w driver) as [found|e0] eqn:Hlook.
  2: { intros Hrun. right. by eapply download_errors. }
  world_simpl.
  destruct (w_run w driver ["version"]) as [output|e1] eqn:Hout.
  2: { intros Hrun. right. by eapply download_errors. }
  destruct (Nat.eqb _ 0).
  { intros Hrun. right. by eapply download_errors. }
  destruct (Semver.Make _) as [pv|e2] eqn:Hmake.
  - destruct (Semver.LT pv minikubeVersion); [|done].
    intros Hrun. right. by eapply download_errors.
  - intros Hrun. simplify_eq. left. by eexists _, _, _.
Qed.

(** X3: a pre-release of the minimum version is older than the minimum: a
    driver that reports one is replaced. *)
Theorem X3_InstallOrUpdate_prerelease_is_older
        (driver destination : string) (minikubeVersion : Semver.Version)
        (w : World) (found output : string) (pv : Semver.Version) :
  w_lookPath w driver = Ok found ->
  w_run w driver ["version"] = Ok output ->
  Semver.Make (ExtractVMDriverVersion output) = Ok pv ->
  Semver.Major pv = Semver.Major minikubeVersion ->
  Semver.Minor pv = Semver.Minor minikubeVersion ->
  Semver.Patch pv = Semver.Patch minikubeVersion ->
  Semver.Pre pv <> [] ->
  Semver.Pre minikubeVersion = [] ->
  InstallOrUpdate driver destination minikubeVersion w
  = download driver destination (probeWorld driver w).
Proof.
  intros Hlook Hrun Hmake HM Hm Hp Hpre Hrel.
  unfold InstallOrUpdate, catch, Exec.LookPath, Exec.Output.
  rewrite Hlook. world_simpl. rewrite Hrun, Hmake.
  destruct (Nat.eqb _ 0); [done|].
  assert (Semver.LT pv minikubeVersion = true) as ->; [|done].
  unfold Semver.LT, Semver.Compare.
  rewrite HM, Hm, Hp, Hrel, !Z.eqb_refl. cbn [negb].
  by destruct (Semver.Pre pv).
Qed.

End Install.

(** ** More on raw disk image creation *)

Lemma Close_fds (fd : nat) (w : World) :
  w_fds (Os.Close fd w).2 = delete fd (w_fds w).
Proof.
  unfold Os.Close. world_simpl.
  destruct (w_fds w !! fd) eqn:Hfd; [by repeat case_match|].
  cbn [snd]. world_simpl. by rewrite delete_id.
Qed.

Lemma Close_fs (fd : nat) (w : World) : w_fs (Os.Close fd w).2 = w_fs w.
Proof. apply (Close_frame fd w). Qed.

Lemma Close_open (fd : nat) (w : World) (f : OpenFile) :
  w_fds w !! fd = Some f ->
  w_fault w (List.length (w_log w)) = None ->
  Os.Close fd w = (Ok tt, set_fds (delete fd) (add_event (EvClose fd) w)).
Proof. intros Hfd Hflt. unfold Os.Close. world_simpl. by rewrite Hfd, Hflt. Qed.

Lemma Close_unfold (fd : nat) (w : World) :
  Os.Close fd w
  = let w1 := add_event (EvClose fd) w in
    match w_fds w1 !! fd with
    | None => (Err (ErrorString "file already closed"), w1)
    | Some _ =>
        match w_fault w (List.length (w_log w)) with
        | Some flt => (Err (Errno (errnoOf flt)), set_fds (delete fd) w1)
        | None => (Ok tt, set_fds (delete fd) w1)
        end
    end.
Proof. reflexivity. Qed.

Lemma defer_fst {S A B} (d : M S B) (body : M S A) (s : S) :
  (defer d body s).1 = (body s).1.
Proof. unfold defer. by destruct (body s). Qed.

Lemma defer_snd {S A B} (d : M S B) (body : M S A) (s : S) :
  (defer d body s).2 = (d (body s).2).2.
Proof. unfold defer. by destruct (body s). Qed.

Lemma pwrite_new (b : list Byte.byte) : Os.pwrite [] 0 b = b.
Proof. unfold Os.pwrite. cbn. by rewrite drop_nil, app_nil_r. Qed.

Section RawDiskMore.

Context `{Externals}.

Variables (sshKeyPath diskPath : string) (diskSizeMb : Z).

(** X7: [createRawDiskImage] leaves no descriptor open: on every path,
    error or not, the table of open files is what it was. *)
Theorem X7_createRawDiskImage_closes_descriptor (w : World) :
  w_fds (createRawDiskImage sshKeyPath diskPath diskSizeMb w).2 = w_fds w.
Proof.
  unfold createRawDiskImage, bind, wrapErr, extern, defer, ret.
  world_simpl.
  destruct (mcnutils_MakeDiskImage sshKeyPath (w_fs w)) as [tarBuf|err];
    [|done].
  unfold Os.OpenFile_CREATE_EXCL_WRONLY, syscall. world_simpl.
  case_fault; [done|].
  destruct (w_fs w !! diskPath); [done|].
  destruct (w_fs w !! Filepath.Dir diskPath) as [dir|]; [|done].
  destruct (i_kind dir); [done|].
  set (fd := fresh (dom (w_fds w))).
  assert (w_fds w !! fd = None) as Hfresh.
  { apply not_elem_of_dom. apply is_fresh. }
  assert (forall x, delete fd (<[fd:=x]> (w_fds w)) = w_fds w) as Hdel.
  { intros x. by rewrite delete_insert_eq, delete_id. }
  match goal with
  | |- w_fds (let '(r, s') := ?body in (r, (Os.Close fd s').2)).2 = _ =>
      assert (forall w1, (body).2 = w1 ->
                delete fd (w_fds w1) = w_fds w) as Hbody;
      [|destruct body as [r s'] eqn:Hb; cbn [snd];
        rewrite Close_fds; by apply Hbody]
  end.
  intros w1 <-.
  unfold Os.Seek_Start, syscall. world_simpl.
  case_fault; [cbn [snd]; world_simpl; apply Hdel|].
  map_simpl.
  unfold Os.Write, Os.written. world_simpl. map_simpl.
  case_fault;
    [cbn [snd]; world_simpl; by rewrite !delete_insert_eq, delete_id|].
  unfold Os.Close at 1. world_simpl. map_simpl.
  case_fault;
    [cbn [snd]; world_simpl; by rewrite delete_delete_eq, !delete_insert_eq, delete_id|].
  unfold Os.Truncate, syscall. world_simpl.
  case_fault;
    [cbn [snd]; world_simpl; by rewrite delete_delete_eq, !delete_insert_eq, delete_id|].
  destruct (_ <? 0)%Z;
    [cbn [snd]; world_simpl; by rewrite delete_delete_eq, !delete_insert_eq, delete_id|].
  map_simpl. inode_simpl. cbn [snd]. world_simpl.
  by rewrite delete_delete_eq, !delete_insert_eq, delete_id.
Qed.

(** What a run of [createRawDiskImage] does when the environment fails
    nothing, the archive is built, the image is not there and its
    directory is. *)
Lemma createRawDiskImage_fault_free (w : World) (tarBuf : list Byte.byte)
      (dir : Inode) :
  faultFree w ->
  mcnutils_MakeDiskImage sshKeyPath (w_fs w) = Ok tarBuf ->
  w_fs w !! diskPath = None ->
  w_fs w !! Filepath.Dir diskPath = Some dir ->
  i_kind dir = KDir ->
  (createRawDiskImage sshKeyPath diskPath diskSizeMb w).1
  = (if (int64 (intMul diskSizeMb 1000000) <? 0)%Z
     then Err (Wrap (Errno EINVAL) "truncate") else Ok tt)
  /\ w_fs (createRawDiskImage sshKeyPath diskPath diskSizeMb w).2
     = <[diskPath :=
           if (int64 (intMul diskSizeMb 1000000) <? 0)%Z
           then builtInode w tarBuf (Z.of_nat (List.length tarBuf))
           else builtInode w (cutTo (int64 (intMul diskSizeMb 1000000)) tarBuf)
                           (int64 (intMul diskSizeMb 1000000))]> (w_fs w).
Proof.
  intros Hff Htar Hnone Hdir Hkind.
  unfold createRawDiskImage.
  generalize (int64 (intMul diskSizeMb 1000000)). intros size.
  unfold bind, wrapErr, extern, ret.
  world_simpl. rewrite Htar.
  unfold Os.OpenFile_CREATE_EXCL_WRONLY, syscall. world_simpl.
  case_fault; [by rewrite Hff in *|].
  rewrite Hnone, Hdir, Hkind.
  set (fd := fresh (dom (w_fds w))).
  rewrite defer_fst, defer_snd, Close_fs.
  unfold Os.Seek_Start, syscall. world_simpl.
  case_fault; [by rewrite Hff in *|]. map_simpl.
  unfold Os.Write, Os.written. world_simpl. map_simpl.
  case_fault; [by rewrite Hff in *|].
  unfold Os.Close. world_simpl. map_simpl.
  case_fault; [by rewrite Hff in *|].
  unfold Os.Truncate, syscall. world_simpl.
  case_fault; [by rewrite Hff in *|].
  destruct (size <? 0)%Z eqn:Hneg; cbn [fst snd].
  - split; [done|]. world_simpl.
    rewrite alter_insert_eq. f_equal.
    unfold Os.writeInode, Os.newFile, builtInode. world_simpl. inode_simpl.
    rewrite pwrite_new. f_equal. lia.
  - map_simpl. inode_simpl. cbn [fst snd]. split; [done|]. world_simpl.
    rewrite alter_insert_eq, insert_insert_eq. f_equal.
    unfold Os.truncateInode, Os.writeInode, Os.newFile, builtInode, cutTo.
    world_simpl. inode_simpl. by rewrite pwrite_new.
Qed.

(** X8: with no failure from the environment, an archive, a directory for
    the image and no image yet, [createRawDiskImage] succeeds for every
    size whose product is not negative, and changes the file system in
    one place: the image holds the archive, cut to the size if that is
    shorter, has the declared length, belongs to the effective user and
    group and has mode 0644 less the umask. *)
Theorem X8_createRawDiskImage_succeeds (w : World) (tarBuf : list Byte.byte)
        (dir : Inode) :
  faultFree w ->
  mcnutils_MakeDiskImage sshKeyPath (w_fs w) = Ok tarBuf ->
  w_fs w !! diskPath = None ->
  w_fs w !! Filepath.Dir diskPath = Some dir ->
  i_kind dir = KDir ->
  (0 <= int64 (intMul diskSizeMb 1000000))%Z ->
  exists w',
    createRawDiskImage sshKeyPath diskPath diskSizeMb w = (Ok tt, w')
    /\ w_fs w'
       = <[diskPath := builtInode w (cutTo (int64 (intMul diskSizeMb 1000000)) tarBuf)
                                  (int64 (intMul diskSizeMb 1000000))]> (w_fs w).
Proof.
  intros Hff Htar Hnone Hdir Hkind Hpos.
  destruct (createRawDiskImage_fault_free w tarBuf dir Hff Htar Hnone Hdir Hkind)
    as [Hres Hfs].
  destruct (Z.ltb_spec (int64 (intMul diskSizeMb 1000000)) 0); [lia|].
  destruct (createRawDiskImage _ _ _ w) as [r w']. cbn [fst snd] in *.
  subst r. by exists w'.
Qed.

(** X9: a size whose product is negative is found out only at the end:
    with no failure from the environment the function returns the
    [EINVAL] of [truncate], and the image stays behind, holding the whole
    archive and as long as the archive. *)
Theorem X9_createRawDiskImage_negative_size (w : World) (tarBuf : list Byte.byte)
        (dir : Inode) :
  faultFree w ->
  mcnutils_MakeDiskImage sshKeyPath (w_fs w) = Ok tarBuf ->
  w_fs w !! diskPath = None ->
  w_fs w !! Filepath.Dir diskPath = Some dir ->
  i_kind dir = KDir ->
  (int64 (intMul diskSizeMb 1000000) < 0)%Z ->
  exists w',
    createRawDiskImage sshKeyPath diskPath diskSizeMb w
    = (Err (Wrap (Errno EINVAL) "truncate"), w')
    /\ w_fs w'
       = <[diskPath := builtInode w tarBuf (Z.of_nat (List.length tarBuf))]> (w_fs w).
Proof.
  intros Hff Htar Hnone Hdir Hkind Hpos.
  destruct (createRawDiskImage_fault_free w tarBuf dir Hff Htar Hnone Hdir Hkind)
    as [Hres Hfs].
  destruct (Z.ltb_spec (int64 (intMul diskSizeMb 1000000)) 0); [|lia].
  destruct (createRawDiskImage _ _ _ w) as [r w']. cbn [fst snd] in *.
  subst r. by exists w'.
Qed.

(** X10: the image needs its directory: with the archive built, no image
    and the [open] reached, a missing directory makes the function fail
    with [ENOENT] and a regular file in its place with [ENOTDIR], the
    file system staying as it was. *)
Theorem X10_createRawDiskImage_needs_directory (w : World) (tarBuf : list Byte.byte) :
  mcnutils_MakeDiskImage sshKeyPath (w_fs w) = Ok tarBuf ->
  w_fault w (List.length (w_log w) + 1) = None ->
  w_fs w !! diskPath = None ->
  match w_fs w !! Filepath.Dir diskPath with
  | None =>
      exists w',
        createRawDiskImage sshKeyPath diskPath diskSizeMb w
        = (Err (Wrap (Errno ENOENT) "open"), w') /\ w_fs w' = w_fs w
  | Some dir =>
      i_kind dir = KFile ->
      exists w',
        createRawDiskImage sshKeyPath diskPath diskSizeMb w
        = (Err (Wrap (Errno ENOTDIR) "open"), w') /\ w_fs w' = w_fs w
  end.
Proof.
  intros Htar Hflt Hnone.
  unfold createRawDiskImage, bind, wrapErr, extern, defer, ret.
  world_simpl. rewrite Htar.
  unfold Os.OpenFile_CREATE_EXCL_WRONLY, syscall. world_simpl.
  rewrite length_app. cbn [List.length]. rewrite Hflt, Hnone.
  destruct (w_fs w !! Filepath.Dir diskPath) as [dir|].
  - intros ->. by eexists.
  - by eexists.
Qed.

(** The file system after a successful run. *)
Lemma createRawDiskImage_ok_state (w w' : World) :
  createRawDiskImage sshKeyPath diskPath diskSizeMb w = (Ok tt, w') ->
  exists tarBuf,
    mcnutils_MakeDiskImage sshKeyPath (w_fs w) = Ok tarBuf
    /\ w_fs w !! diskPath = None
    /\ w_fs w'
       = <[diskPath := builtInode w (cutTo (int64 (intMul diskSizeMb 1000000)) tarBuf)
                                  (int64 (intMul diskSizeMb 1000000))]> (w_fs w).
Proof.
  unfold createRawDiskImage, bind, wrapErr, extern, defer, ret.
  world_simpl.
  destruct (mcnutils_MakeDiskImage sshKeyPath (w_fs w)) as [tarBuf|err];
    [|done].
  unfold Os.OpenFile_CREATE_EXCL_WRONLY, syscall. world_simpl.
  case_fault; [done|].
  destruct (w_fs w !! diskPath) eqn:Hnone; [done|].
  destruct (w_fs w !! Filepath.Dir diskPath) as [dir|]; [|done].
  destruct (i_kind dir); [done|].
  set (fd := fresh (dom (w_fds w))).
  unfold Os.Seek_Start, syscall. world_simpl.
  case_fault; [done|]. map_simpl.
  unfold Os.Write, Os.written. world_simpl. map_simpl.
  case_fault; [done|].
  unfold Os.Close at 1. world_simpl. map_simpl.
  case_fault; [done|].
  unfold Os.Truncate, syscall. world_simpl.
  case_fault; [done|].
  destruct (_ <? 0)%Z; [done|].
  map_simpl. inode_simpl. intros Hrun. simplify_eq.
  exists tarBuf. split_and!; try done.
  rewrite Close_fs. world_simpl.
  rewrite alter_insert_eq, insert_insert_eq. f_equal.
  unfold Os.truncateInode, Os.writeInode, Os.newFile, builtInode, cutTo.
  world_simpl. inode_simpl. by rewrite pwrite_new.
Qed.

(** X11: whenever [createRawDiskImage] returns success, the archive was
    built, there was no image before, and the file system differs from
    the one before in the image alone, which is the archive cut to the
    size, owned by the effective user and group, with mode 0644 less the
    umask. *)
Theorem X11_createRawDiskImage_success_state (w w' : World) :
  createRawDiskImage sshKeyPath diskPath diskSizeMb w = (Ok tt, w') ->
  exists tarBuf,
    mcnutils_MakeDiskImage sshKeyPath (w_fs w) = Ok tarBuf
    /\ w_fs w !! diskPath = None
    /\ w_fs w'
       = <[diskPath := builtInode w (cutTo (int64 (intMul diskSizeMb 1000000)) tarBuf)
                                  (int64 (intMul diskSizeMb 1000000))]> (w_fs w).
Proof. apply createRawDiskImage_ok_state. Qed.

End RawDiskMore.

(** ** More on the ownership fix *)

(** What [os.Chown] does in every case: it is logged, and the inode, if
    the call went through, has the new owner and is otherwise the same. *)
Lemma Chown_any (name : string) (uid gid : Z) (w : World) :
  let r := Os.Chown name uid gid w in
  w_log r.2 = w_log w ++ [EvChown name uid gid]
  /\ w_uid r.2 = w_uid w /\ w_egid r.2 = w_egid w /\ w_fault r.2 = w_fault w
  /\ (forall q, match w_fs w !! q with
                | Some i => exists i', w_fs r.2 !! q = Some i' /\ sameButOwner i i'
                | None => w_fs r.2 !! q = None
                end).
Proof.
  unfold Os.Chown, syscall. world_simpl.
  assert (forall q, match w_fs w !! q with
                    | Some i => exists i', w_fs w !! q = Some i' /\ sameButOwner i i'
                    | None => w_fs w !! q = None
                    end) as Hsame.
  { intros q. destruct (w_fs w !! q); [|done]. eexists. by split. }
  case_fault; [by split_and!|].
  destruct (w_fs w !! name) as [i|] eqn:Hi; [|by split_and!].
  cbn [snd]. world_simpl. split_and!; try done.
  intros q. destruct (decide (name = q)) as [<-|Hne].
  - rewrite Hi, lookup_insert_eq. eexists. split; [done|]. by split_and!.
  - rewrite lookup_insert_ne by done. apply Hsame.
Qed.

Lemma sameButOwner_trans (i j k : Inode) :
  sameButOwner i j -> sameButOwner j k -> sameButOwner i k.
Proof. unfold sameButOwner. intros (?&?&?&?) (?&?&?&?). split_and!; congruence. Qed.

(** Every run of the loop, successful or not: it changes owners and
    nothing else, attempts the entries in order and stops at the first
    failure, and its only error is the wrapped one of a [chown]. *)
Lemma chownFiles_any (path : string) (files : list string) (w : World) :
  let r := chownFiles path files w in
  (forall q, match w_fs w !! q with
             | Some i => exists i', w_fs r.2 !! q = Some i' /\ sameButOwner i i'
             | None => w_fs r.2 !! q = None
             end)
  /\ (r.1 = Ok tt \/ exists cause, r.1 = Err (Wrap cause "chown file"))
  /\ exists k, k <= List.length files
       /\ w_log r.2 = w_log w ++
            ((fun f => EvChown (Filepath.Join [path; f]) (w_uid w) (w_egid w))
               <$> take k files).
Proof.
  revert w. induction files as [|f files IH]; intros w; cbn zeta.
  - cbn [chownFiles]. unfold ret. cbn [fst snd]. split_and!.
    + intros q. destruct (w_fs w !! q); [|done]. eexists. by split.
    + by left.
    + exists 0. split; [done|]. by rewrite app_nil_r.
  - cbn [chownFiles]. unfold bind, wrapErr, Os.Getuid, Os.Getegid.
    destruct (Chown_any (Filepath.Join [path; f]) (w_uid w) (w_egid w) w)
      as (Hlog & Huid & Hegid & _ & Hfs).
    destruct (Os.Chown _ _ _ w) as [[[]|e] w1]; cbn [fst snd] in *.
    + specialize (IH w1). cbn zeta in IH.
      destruct IH as (Hfs' & Hres & k & Hk & Hlog').
      split_and!; [|done|].
      * intros q. specialize (Hfs q). specialize (Hfs' q).
        destruct (w_fs w !! q) as [i|].
        -- destruct Hfs as (i1 & Hi1 & Hs1). rewrite Hi1 in Hfs'.
           destruct Hfs' as (i2 & Hi2 & Hs2). exists i2. split; [done|].
           by eapply sameButOwner_trans.
        -- by rewrite Hfs in Hfs'.
      * exists (S k). split; [cbn; lia|].
        rewrite Hlog', Hlog, Huid, Hegid. by rewrite <- app_assoc.
    + split_and!; [done|right; by eexists|].
      exists 1. split; [cbn; lia|]. by rewrite Hlog.
Qed.

Lemma entries_insert_existing (fs : FS) (p dir : string) (i i' : Inode) :
  fs !! p = Some i ->
  Os.entries (<[p := i']> fs) dir ≡ₚ Os.entries fs dir.
Proof.
  intros Hp. unfold Os.entries.
  assert ((map_to_list (<[p := i']> fs)).*1 ≡ₚ (map_to_list fs).*1) as ->; [|done].
  rewrite <- (insert_delete_eq fs p i').
  rewrite <- (insert_delete_id fs p i Hp) at 2.
  rewrite !map_to_list_insert by apply lookup_delete_eq. done.
Qed.

(** What [fixPermissions] leaves of every path, on every outcome. *)
Lemma fixPermissions_frame (path : string) (w : World) (q : string) :
  match w_fs w !! q with
  | Some i => exists i', w_fs (fixPermissions path w).2 !! q = Some i'
                         /\ sameButOwner i i'
  | None => w_fs (fixPermissions path w).2 !! q = None
  end.
Proof.
  unfold fixPermissions, bind, wrapErr, Glog.Infof, ret, Os.Getuid, Os.Getegid.
  destruct (Chown_any path (w_uid w) (w_egid w) w) as (_ & _ & _ & _ & Hfs).
  specialize (Hfs q).
  destruct (Os.Chown _ _ _ w) as [[[]|e] w1]; cbn [fst snd] in *; [|done].
  unfold Ioutil.ReadDir, syscall. world_simpl.
  case_fault; [done|].
  destruct (w_fs w1 !! path) as [d|]; [|done].
  destruct (i_kind d); [done|].
  match goal with
  | |- context [chownFiles ?p ?l ?w0] =>
      destruct (chownFiles_any p l w0) as (Hfs' & _)
  end.
  world_simpl. specialize (Hfs' q).
  destruct (w_fs w !! q) as [i|].
  - destruct Hfs as (i1 & Hi1 & Hs1). rewrite Hi1 in Hfs'.
    destruct Hfs' as (i2 & Hi2 & Hs2). exists i2. split; [done|].
    by eapply sameButOwner_trans.
  - by rewrite Hfs in Hfs'.
Qed.

(** X12: [fixPermissions] changes owners and nothing else: after every run,
    successful or not, exactly the paths that were there are there, and
    each has the kind, content, length and mode it had. *)
Theorem X12_fixPermissions_changes_only_owners (path : string) (w : World) (q : string) :
  match w_fs w !! q with
  | Some i => exists i', w_fs (fixPermissions path w).2 !! q = Some i'
                         /\ sameButOwner i i'
  | None => w_fs (fixPermissions path w).2 !! q = None
  end.
Proof. apply fixPermissions_frame. Qed.


(** X14: given a regular file instead of a directory, [fixPermissions]
    changes its owner and then fails at the listing: the error is
    [ENOTDIR], wrapped as [read dir], unless the environment fails one of
    the two calls. *)
Theorem X14_fixPermissions_on_regular_file (path : string) (w : World) (i : Inode) :
  w_fs w !! path = Some i ->
  i_kind i = KFile ->
  w_fault w (List.length (w_log w)) = None ->
  w_fault w (List.length (w_log w) + 1) = None ->
  exists w',
    fixPermissions path w = (Err (Wrap (Errno ENOTDIR) "read dir"), w')
    /\ w_fs w' = <[path := Os.chownInode i (w_uid w) (w_egid w)]> (w_fs w)
    /\ eventsSince w w' = [EvChown path (w_uid w) (w_egid w); EvReadDir path].
Proof.
  intros Hi Hkind Hf0 Hf1.
  unfold fixPermissions, bind, wrapErr, Glog.Infof, ret, Os.Getuid, Os.Getegid.
  unfold Os.Chown, Ioutil.ReadDir, syscall. world_simpl.
  rewrite Hf0, Hi. world_simpl. rewrite length_app. cbn [List.length].
  rewrite Hf1. rewrite lookup_insert_eq. inode_simpl. rewrite Hkind.
  eexists. split; [done|]. world_simpl. split; [done|].
  apply eventsSince_app. world_simpl. by rewrite <- app_assoc.
Qed.

(** X15: a successful [fixPermissions] on a directory with N entries makes
    N+1 [chown] calls and one listing: first the directory, then the
    listing, then one [chown] per entry, each with the real user and the
    effective group. *)
Theorem X15_fixPermissions_chowns_each_entry_once (path : string) (w w' : World) :
  fixPermissions path w = (Ok tt, w') ->
  exists files,
    files ≡ₚ Os.entries (w_fs w) path
    /\ eventsSince w w'
       = EvChown path (w_uid w) (w_egid w) :: EvReadDir path ::
         ((fun f => EvChown (Filepath.Join [path; f]) (w_uid w) (w_egid w))
            <$> files).
Proof.
  unfold fixPermissions, bind, wrapErr, Glog.Infof, ret, Os.Getuid, Os.Getegid.
  intros Hrun.
  destruct (Os.Chown _ _ _ w) as [[[]|e] w1] eqn:Hchown; [|done].
  apply Chown_ok in Hchown as (i & Hi & ->).
  unfold Ioutil.ReadDir, syscall in Hrun. world_simpl.
  case_fault_in Hrun; [done|].
  rewrite lookup_insert_eq in Hrun. inode_simpl.
  destruct (i_kind i) eqn:Hkind; [done|].
  apply chownFiles_ok in Hrun as (_ & Hlog & _).
  world_simpl. eexists. split.
  2: { apply eventsSince_app. rewrite Hlog. by rewrite <- !app_assoc. }
  rewrite merge_sort_Permutation. by eapply entries_insert_existing.
Qed.

Lemma Chown_other (name : string) (uid gid : Z) (w : World) (q : string) :
  q <> name -> w_fs (Os.Chown name uid gid w).2 !! q = w_fs w !! q.
Proof.
  intros Hne. unfold Os.Chown, syscall. world_simpl.
  repeat case_match; cbn [snd]; world_simpl; try done.
  by rewrite lookup_insert_ne.
Qed.

Lemma chownFiles_other (path : string) (files : list string) (w : World)
      (q : string) :
  (forall f, f ∈ files -> Filepath.Join [path; f] <> q) ->
  w_fs (chownFiles path files w).2 !! q = w_fs w !! q.
Proof.
  revert w. induction files as [|f files IH]; intros w Hq; [done|].
  cbn [chownFiles]. unfold bind, wrapErr, Os.Getuid, Os.Getegid.
  pose proof (Chown_other (Filepath.Join [path; f]) (w_uid w) (w_egid w) w q)
    as Hstep.
  destruct (Os.Chown _ _ _ w) as [[[]|e] w1]; cbn [fst snd] in *.
  - rewrite IH, Hstep; [done| |].
    + intros Heq. eapply Hq; [|by symmetry]. apply list_elem_of_here.
    + intros g Hg. apply Hq. by apply list_elem_of_further.
  - apply Hstep. intros Heq. eapply Hq; [|by symmetry]. apply list_elem_of_here.
Qed.

(** X16: [fixPermissions] is not recursive: a path that is neither the
    directory nor one of its entries, such as a file in a subdirectory,
    is exactly what it was after every run. *)
Theorem X16_fixPermissions_touches_only_entries (path : string) (w : World)
        (q : string) :
  q <> path ->
  (forall name, name ∈ Os.entries (w_fs w) path ->
                Filepath.Join [path; name] <> q) ->
  w_fs (fixPermissions path w).2 !! q = w_fs w !! q.
Proof.
  intros Hne Hq.
  unfold fixPermissions, bind, wrapErr, Glog.Infof, ret, Os.Getuid, Os.Getegid.
  pose proof (Chown_other path (w_uid w) (w_egid w) w q Hne) as Hstep.
  destruct (Os.Chown _ _ _ w) as [[[]|e] w1] eqn:Hchown; cbn [fst snd] in *;
    [|done].
  apply Chown_ok in Hchown as (i & Hi & ->).
  unfold Ioutil.ReadDir, syscall. world_simpl.
  case_fault; [done|].
  rewrite lookup_insert_eq. inode_simpl.
  destruct (i_kind i); [done|].
  rewrite chownFiles_other; [done|].
  intros f Hf. apply Hq.
  rewrite merge_sort_Permutation in Hf. world_simpl.
  by rewrite (entries_insert_existing _ _ _ _ _ Hi) in Hf.
Qed.

(** ** More on provisioning *)

Lemma Close_log (fd : nat) (w : World) :
  w_log (Os.Close fd w).2 = w_log w ++ [EvClose fd].
Proof. apply (Close_frame fd w). Qed.

Section ProvisionMore.

Context `{Externals}.

Lemma createRawDiskImage_log (sshKeyPath diskPath : string) (diskSizeMb : Z)
      (w : World) :
  exists evs,
    w_log (createRawDiskImage sshKeyPath diskPath diskSizeMb w).2 = w_log w ++ evs
    /\ Forall buildEvent evs.
Proof.
  unfold createRawDiskImage.
  generalize (int64 (intMul diskSizeMb 1000000)). intros size.
  unfold bind, wrapErr, extern, ret. world_simpl.
  destruct (mcnutils_MakeDiskImage sshKeyPath (w_fs w)) as [tarBuf|err].
  2: { eexists. split; [done|]. by repeat constructor. }
  unfold Os.OpenFile_CREATE_EXCL_WRONLY, syscall. world_simpl.
  assert (forall w1 : World,
            w_log w1 = (w_log w ++ [EvB2dTar sshKeyPath]) ++ [EvOpen diskPath] ->
            exists evs, w_log w1 = w_log w ++ evs /\ Forall buildEvent evs)
    as Hopen.
  { intros w1 ->. eexists. rewrite <- app_assoc. split; [done|].
    by repeat constructor. }
  case_fault; [by apply Hopen|].
  destruct (w_fs w !! diskPath); [by apply Hopen|].
  destruct (w_fs w !! Filepath.Dir diskPath) as [dir|]; [|by apply Hopen].
  destruct (i_kind dir); [by apply Hopen|].
  set (fd := fresh (dom (w_fds w))).
  rewrite defer_snd, Close_log.
  assert (forall (w1 : World) (evs : list event),
            w_log w1 = ((w_log w ++ [EvB2dTar sshKeyPath]) ++ [EvOpen diskPath]) ++ evs ->
            Forall buildEvent evs ->
            exists evs', w_log w1 ++ [EvClose fd] = w_log w ++ evs'
                         /\ Forall buildEvent evs') as Hbody.
  { intros w1 evs -> Hevs. eexists. rewrite <- !app_assoc. split; [done|].
    repeat constructor. apply Forall_app. split; [done|]. by repeat constructor. }
  unfold Os.Seek_Start, syscall. world_simpl.
  case_fault; [eapply Hbody; [done|by repeat constructor]|]. map_simpl.
  unfold Os.Write, Os.written. world_simpl. map_simpl.
  case_fault;
    [eapply Hbody; [cbn [snd]; world_simpl; by rewrite <- !app_assoc
                   |by repeat constructor]|].
  unfold Os.Close. world_simpl. map_simpl.
  case_fault;
    [eapply Hbody; [cbn [snd]; world_simpl; by rewrite <- !app_assoc
                   |by repeat constructor]|].
  unfold Os.Truncate, syscall. world_simpl.
  case_fault;
    [eapply Hbody; [cbn [snd]; world_simpl; by rewrite <- !app_assoc
                   |by repeat constructor]|].
  destruct (size <? 0)%Z;
    [eapply Hbody; [cbn [snd]; world_simpl; by rewrite <- !app_assoc
                   |by repeat constructor]|].
  map_simpl. inode_simpl.
  eapply Hbody; [cbn [snd]; world_simpl; by rewrite <- !app_assoc
                |by repeat constructor].
Qed.

Variables (d : BaseDriver) (boot2dockerURL : string) (diskSize : Z).

(** [MakeDiskImage] from the [stat] on, once the ISO is staged and the
    key generated: in the world [ws] in which the [stat] has been made,
    it is the build and the ownership fix when the [stat] says that
    there is no image, and nothing otherwise. *)
Lemma MakeDiskImage_staged (w : World) (fs' : FS) :
  staged d boot2dockerURL (w_fs w) fs' ->
  exists ws,
    w_fs ws = fs' /\ w_log ws = w_log w ++ skipEvents d boot2dockerURL
    /\ w_fds ws = w_fds w /\ sameProcess w ws
    /\ MakeDiskImage d boot2dockerURL diskSize w
       = if bool_decide (w_fault w (List.length (w_log w) + 2) = None
                         /\ fs' !! GetDiskPath d = None)
         then
           match createRawDiskImage (publicSSHKeyPath d) (GetDiskPath d) diskSize ws with
           | (Err e, wc) =>
               (Err (Wrap e ("createRawDiskImage(" +:+ GetDiskPath d +:+ ")")), wc)
           | (Ok _, wc) =>
               match fixPermissions (ResolveStorePath d ".") wc with
               | (Err e, wf) =>
                   (Err (Wrap e ("fixing permissions on " +:+ ResolveStorePath d ".")), wf)
               | (Ok _, wf) => (Ok tt, wf)
               end
           end
         else (Ok tt, ws).
Proof.
  intros (fs1 & Hiso & Hkey).
  unfold MakeDiskImage, bind, wrapErr, extern, catch, Glog.Infof, ret.
  world_simpl. rewrite Hiso. world_simpl. rewrite Hkey.
  unfold Os.Stat, syscall. world_simpl.
  rewrite !length_app. cbn [List.length].
  replace (List.length (w_log w) + 1 + 1) with (List.length (w_log w) + 2) by lia.
  eexists (mkWorld fs' (w_fds w) (w_uid w) (w_euid w) (w_egid w) (w_umask w)
                   (((w_log w ++ [EvCopyIso (StorePath d) boot2dockerURL (MachineName d)])
                       ++ [EvGenerateSSHKey (GetSSHKeyPath d)])
                      ++ [EvStat (GetDiskPath d)])
                   (w_fault w) (w_short w) (w_lookPath w) (w_run w)).
  world_simpl. split_and!; try done.
  { unfold skipEvents. by rewrite <- !app_assoc. }
  destruct (w_fault w (List.length (w_log w) + 2)) as [f|] eqn:Hflt.
  { rewrite IsNotExist_fault. rewrite bool_decide_eq_false_2; [done|].
    by intros [? _]. }
  destruct (fs' !! GetDiskPath d) eqn:Hdisk.
  { rewrite bool_decide_eq_false_2; [done|]. by intros [_ ?]. }
  rewrite bool_decide_eq_true_2 by done. cbn [IsNotExist Cause].
  destruct (createRawDiskImage _ _ _ _) as [[[]|e] wc]; [|done].
  by destruct (fixPermissions _ wc) as [[[]|e] wf].
Qed.

(** X18: every error of [MakeDiskImage] is a wrapped one, and its text tells
    how far the call got: after a failed ISO copy nothing else is tried,
    after a failed key generation no [stat] is made, a failed build is not
    followed by any [chown], and when the ownership fix fails the image
    is built and in place with its declared length.  An error of the
    [stat] is never returned. *)
Theorem X18_MakeDiskImage_errors (w w' : World) (err : error) :
  MakeDiskImage d boot2dockerURL diskSize w = (Err err, w') ->
  (exists cause,
      err = Wrap cause "copy iso to machine dir"
      /\ eventsSince w w'
         = [EvCopyIso (StorePath d) boot2dockerURL (MachineName d)])
  \/ (exists cause,
        err = Wrap cause "generate ssh key"
        /\ eventsSince w w'
           = [EvCopyIso (StorePath d) boot2dockerURL (MachineName d);
              EvGenerateSSHKey (GetSSHKeyPath d)])
  \/ (exists cause,
        err = Wrap cause ("createRawDiskImage(" +:+ GetDiskPath d +:+ ")")
        /\ forall p u g, EvChown p u g ∉ eventsSince w w')
  \/ (exists cause i,
        err = Wrap cause ("fixing permissions on " +:+ ResolveStorePath d ".")
        /\ w_fs w' !! GetDiskPath d = Some i
        /\ i_kind i = KFile
        /\ i_size i = int64 (intMul diskSize 1000000)).
Proof.
  destruct (b2d_CopyIsoToMachineDir (StorePath d) boot2dockerURL (MachineName d)
              (w_fs w)) as [[[]|e1] fs1] eqn:Hiso.
  2: { unfold MakeDiskImage, bind, wrapErr, extern, catch, Glog.Infof, ret.
       world_simpl. rewrite Hiso. intros Hrun. simplify_eq.
       left. eexists. split; [done|]. by apply eventsSince_app. }
  destruct (ssh_GenerateSSHKey (GetSSHKeyPath d) fs1) as [[[]|e2] fs2] eqn:Hkey.
  2: { unfold MakeDiskImage, bind, wrapErr, extern, catch, Glog.Infof, ret.
       world_simpl. rewrite Hiso. world_simpl. rewrite Hkey.
       intros Hrun. simplify_eq.
       right. left. eexists. split; [done|]. apply eventsSince_app.
       world_simpl. by rewrite <- app_assoc. }
  destruct (MakeDiskImage_staged w fs2) as (ws & Hfs & Hlog & _ & _ & ->);
    [by exists fs1|].
  case_bool_decide; [|done].
  pose proof (createRawDiskImage_outcome (publicSSHKeyPath d) (GetDiskPath d)
                diskSize ws) as Hout.
  destruct (createRawDiskImage_log (publicSSHKeyPath d) (GetDiskPath d)
              diskSize ws) as (evs & Hlogc & Hevs).
  destruct (createRawDiskImage _ _ _ ws) as [[[]|e] wc]; cbn [snd] in *.
  - pose proof (fixPermissions_frame (ResolveStorePath d ".") wc (GetDiskPath d))
      as Hframe.
    destruct (fixPermissions _ wc) as [[[]|e] wf]; [done|]. cbn [snd] in *.
    intros Hrun. simplify_eq. do 3 right.
    inversion Hout as [| |
                       |tarBuf wc' i fd Htar Hnone Hsome Hkind Hsize]; subst.
    rewrite Hsome in Hframe. destruct Hframe as (i' & Hi' & Hk & _ & Hs & _).
    exists e, i'. split_and!; [done..|congruence|congruence].
  - intros Hrun. simplify_eq. do 2 right. left. eexists. split; [done|].
    intros p u g.
    rewrite (eventsSince_app _ _ (skipEvents d boot2dockerURL ++ evs))
      by (rewrite Hlogc, Hlog; by rewrite <- app_assoc).
    rewrite elem_of_app. intros [Hin|Hin].
    + unfold skipEvents in Hin.
      repeat (apply elem_of_cons in Hin as [?|Hin]; [done|]).
      by apply elem_of_nil in Hin.
    + rewrite Forall_forall in Hevs. by apply Hevs in Hin.
Qed.

(** X19: an error of the [stat] other than the file's absence is taken for
    the image being there: the call returns success after the [stat],
    nothing is built and no owner changed, whether or not there is an
    image. *)
Theorem X19_MakeDiskImage_stat_failure_skips_build (w : World) (fs' : FS) (f : fault) :
  staged d boot2dockerURL (w_fs w) fs' ->
  w_fault w (List.length (w_log w) + 2) = Some f ->
  exists w',
    MakeDiskImage d boot2dockerURL diskSize w = (Ok tt, w')
    /\ w_fs w' = fs'
    /\ eventsSince w w' = skipEvents d boot2dockerURL.
Proof.
  intros Hstaged Hflt.
  destruct (MakeDiskImage_staged w fs' Hstaged) as (ws & Hfs & Hlog & _ & _ & ->).
  rewrite bool_decide_eq_false_2 by (rewrite Hflt; by intros [? _]).
  exists ws. split_and!; [done..|]. by apply eventsSince_app.
Qed.

(** X20: a build that fails after the exclusive create is not repaired by
    calling again: the file it left counts as the image, so the next
    call, once the ISO is staged and the key generated, returns success
    after the [stat] with that file still in place. *)
Theorem X20_MakeDiskImage_partial_image_blocks_retry
        (w w1 : World) (fs' : FS) (cause : error) (msg : string) :
  MakeDiskImage d boot2dockerURL diskSize w
  = (Err (Wrap (Wrap cause msg) ("createRawDiskImage(" +:+ GetDiskPath d +:+ ")")),
     w1) ->
  msg ∈ laterSteps (GetDiskPath d) ->
  staged d boot2dockerURL (w_fs w1) fs' ->
  fs' !! GetDiskPath d = w_fs w1 !! GetDiskPath d ->
  exists w2,
    MakeDiskImage d boot2dockerURL diskSize w1 = (Ok tt, w2)
    /\ w_fs w2 = fs'
    /\ is_Some (w_fs w2 !! GetDiskPath d)
    /\ eventsSince w1 w2 = skipEvents d boot2dockerURL.
Proof.
  intros Hfirst Hmsg Hstaged Hkeep.
  assert (is_Some (w_fs w1 !! GetDiskPath d)) as Hthere.
  { revert Hfirst.
    destruct (b2d_CopyIsoToMachineDir (StorePath d) boot2dockerURL (MachineName d)
                (w_fs w)) as [[[]|e1] fs1] eqn:Hiso.
    2: { unfold MakeDiskImage, bind, wrapErr, extern, catch, Glog.Infof, ret.
         world_simpl. rewrite Hiso. intros Hrun.
         injection Hrun; intros; discriminate. }
    destruct (ssh_GenerateSSHKey (GetSSHKeyPath d) fs1) as [[[]|e2] fs2] eqn:Hkey.
    2: { unfold MakeDiskImage, bind, wrapErr, extern, catch, Glog.Infof, ret.
         world_simpl. rewrite Hiso. world_simpl. rewrite Hkey. intros Hrun.
         injection Hrun; intros; discriminate. }
    destruct (MakeDiskImage_staged w fs2) as (ws & Hfs & Hlog & _ & _ & ->);
      [by exists fs1|].
    case_bool_decide; [|done].
    pose proof (createRawDiskImage_outcome (publicSSHKeyPath d) (GetDiskPath d)
                  diskSize ws) as Hout.
    destruct (createRawDiskImage _ _ _ ws) as [[[]|e] wc].
    - destruct (fixPermissions _ wc) as [[[]|e] wf]; [done|]. intros Hrun.
      injection Hrun; intros; discriminate.
    - intros Hrun. simplify_eq. unfold laterSteps in Hmsg.
      inversion Hout; subst; [| |done];
        repeat (apply elem_of_cons in Hmsg as [Heq|Hmsg];
                [rewrite ?str_app_cons in Heq; discriminate Heq|]);
        by apply elem_of_nil in Hmsg. }
  destruct (MakeDiskImage_skips d boot2dockerURL diskSize w1 fs' Hstaged)
    as (w2 & Hrun & Hfs & Hlog); [by rewrite Hkeep|].
  exists w2. split_and!; [done..| |by apply eventsSince_app].
  by rewrite Hfs, Hkeep.
Qed.

(** X21: the image of a successful call that built it: a regular file of
    the declared length, with mode 0644 less the umask, that belongs to
    the real user and the effective group of the process, not to the
    effective user who created it. *)
Theorem X21_MakeDiskImage_new_image (w w1 : World) :
  imageInMachineDir d ->
  w_uid w <> (-1)%Z -> w_egid w <> (-1)%Z ->
  MakeDiskImage d boot2dockerURL diskSize w = (Ok tt, w1) ->
  EvOpen (GetDiskPath d) ∈ eventsSince w w1 ->
  exists i,
    w_fs w1 !! GetDiskPath d = Some i
    /\ i_kind i = KFile
    /\ i_size i = int64 (intMul diskSize 1000000)
    /\ i_mode i = Z.ldiff 420 (w_umask w)
    /\ i_uid i = w_uid w
    /\ i_gid i = w_egid w.
Proof.
  intros (Hdir & Hne & Hjoin) HU HG.
  destruct (b2d_CopyIsoToMachineDir (StorePath d) boot2dockerURL (MachineName d)
              (w_fs w)) as [[[]|e1] fs1] eqn:Hiso.
  2: { unfold MakeDiskImage, bind, wrapErr, extern, catch, Glog.Infof, ret.
       world_simpl. by rewrite Hiso. }
  destruct (ssh_GenerateSSHKey (GetSSHKeyPath d) fs1) as [[[]|e2] fs2] eqn:Hkey.
  2: { unfold MakeDiskImage, bind, wrapErr, extern, catch, Glog.Infof, ret.
       world_simpl. rewrite Hiso. world_simpl. by rewrite Hkey. }
  destruct (MakeDiskImage_staged w fs2)
    as (ws & Hfs & Hlog & _ & (Huid & Heuid & Hegid & Hmask & _) & ->);
    [by exists fs1|].
  case_bool_decide.
  2: { intros Hrun Hopen. simplify_eq.
       rewrite (eventsSince_app _ _ _ Hlog) in Hopen.
       unfold skipEvents in Hopen.
       repeat (apply elem_of_cons in Hopen as [?|Hopen]; [done|]).
       by apply elem_of_nil in Hopen. }
  pose proof (createRawDiskImage_outcome (publicSSHKeyPath d) (GetDiskPath d)
                diskSize ws) as Hout.
  destruct (createRawDiskImage _ _ _ ws) as [[[]|e] wc] eqn:Hbuild; [|done].
  apply createRawDiskImage_ok_state in Hbuild as (tarBuf & _ & _ & Hfsc).
  inversion Hout as [| |
                     |tarBuf' wc' i fd _ _ _ _ _ _ _ _ Huidc Hegidc]; subst.
  pose proof (fixPermissions_frame (ResolveStorePath d ".") wc (GetDiskPath d))
    as Hframe.
  destruct (fixPermissions _ wc) as [[[]|e] wf] eqn:Hfix; [|done].
  cbn [snd] in Hframe. intros Hrun _. simplify_eq.
  apply fixPermissions_ok in Hfix as (_ & _ & Hown).
  destruct Hown as [_ Hown]; [congruence..|].
  specialize (Hown (Filepath.Base (GetDiskPath d))).
  rewrite Hjoin in Hown.
  destruct Hown as (j & Hj & Hju & Hjg).
  { apply elem_of_entries. exists (GetDiskPath d). split_and!; try done.
    rewrite Hfsc, lookup_insert_eq. eauto. }
  rewrite Hfsc, lookup_insert_eq, Hj in Hframe.
  destruct Hframe as (j' & Hj' & Hk & _ & Hs & Hm). simplify_eq.
  exists j'. unfold builtInode in *. inode_simpl.
  split_and!; congruence.
Qed.

End ProvisionMore.

(** ** Runs that succeed *)

Lemma Chown_there (name : string) (uid gid : Z) (w : World) (i : Inode) :
  faultFree w ->
  w_fs w !! name = Some i ->
  Os.Chown name uid gid w
  = (Ok tt, set_fs (insert name (Os.chownInode i uid gid))
                   (add_event (EvChown name uid gid) w)).
Proof.
  intros Hff Hi. unfold Os.Chown, syscall. world_simpl. by rewrite Hff, Hi.
Qed.

Lemma is_Some_insert (fs : FS) (p q : string) (i : Inode) :
  is_Some (fs !! q) -> is_Some (<[p := i]> fs !! q).
Proof.
  intros Hq. destruct (decide (p = q)) as [->|Hne].
  - rewrite lookup_insert_eq. eauto.
  - by rewrite lookup_insert_ne.
Qed.

Lemma chownFiles_succeeds (path : string) (files : list string) (w : World) :
  faultFree w ->
  Forall (fun f => is_Some (w_fs w !! Filepath.Join [path; f])) files ->
  exists w', chownFiles path files w = (Ok tt, w').
Proof.
  revert w. induction files as [|f files IH]; intros w Hff Hall.
  - by eexists.
  - apply Forall_cons in Hall as [[i Hi] Hall].
    cbn [chownFiles]. unfold bind, wrapErr, Os.Getuid, Os.Getegid.
    rewrite (Chown_there _ _ _ _ i Hff Hi).
    apply IH.
    + intros n. world_simpl. apply Hff.
    + world_simpl. eapply Forall_impl; [exact Hall|].
      intros g Hg. by apply is_Some_insert.
Qed.

Lemma entries_insert_new (fs : FS) (p dir : string) (i : Inode) :
  fs !! p = None ->
  Filepath.Dir p = dir -> p <> dir ->
  Os.entries (<[p := i]> fs) dir ≡ₚ Filepath.Base p :: Os.entries fs dir.
Proof.
  intros Hp Hdir Hne. unfold Os.entries.
  rewrite map_to_list_insert by done.
  rewrite fmap_cons. cbn [fst]. by rewrite filter_cons_True.
Qed.

Lemma fixPermissions_total (path : string) (w : World) (dir : Inode) :
  faultFree w ->
  w_fs w !! path = Some dir ->
  i_kind dir = KDir ->
  entriesResolve (w_fs w) path ->
  exists w', fixPermissions path w = (Ok tt, w').
Proof.
  intros Hff Hdir Hkind Hall.
  unfold fixPermissions, bind, wrapErr, Glog.Infof, ret, Os.Getuid, Os.Getegid.
  rewrite (Chown_there _ _ _ _ dir Hff Hdir).
  unfold Ioutil.ReadDir, syscall. world_simpl.
  rewrite Hff, lookup_insert_eq. inode_simpl. rewrite Hkind.
  destruct (chownFiles_succeeds path
              (merge_sort (fun a b => String.leb a b)
                 (Os.entries (<[path := Os.chownInode dir (w_uid w) (w_egid w)]> (w_fs w))
                             path))
              (add_event (EvReadDir path)
                 (set_fs (insert path (Os.chownInode dir (w_uid w) (w_egid w)))
                    (add_event (EvChown path (w_uid w) (w_egid w)) w))))
    as (w' & Hrun).
  - intros n. world_simpl. apply Hff.
  - world_simpl. rewrite merge_sort_Permutation.
    rewrite (entries_insert_existing _ _ _ _ _ Hdir).
    eapply Forall_impl; [exact Hall|].
    intros g Hg. by apply is_Some_insert.
  - rewrite Hrun. by eexists.
Qed.

(** X17: [fixPermissions] succeeds on a directory whose entries are found
    under their joined names when the environment fails no call. *)
Theorem X17_fixPermissions_succeeds (path : string) (w : World) (dir : Inode) :
  faultFree w ->
  w_fs w !! path = Some dir ->
  i_kind dir = KDir ->
  entriesResolve (w_fs w) path ->
  exists w', fixPermissions path w = (Ok tt, w').
Proof. apply fixPermissions_total. Qed.

Section ProvisionSucceeds.

Context `{Externals}.

Variables (d : BaseDriver) (boot2dockerURL : string) (diskSize : Z).

(** X22: a first provisioning succeeds: when the environment fails no
    call, the ISO is staged and the key generated without an image being
    there, the archive can be built, the machine directory exists, and
    the size's product is not negative, [MakeDiskImage] returns success
    and has built the image. *)
Theorem X22_MakeDiskImage_succeeds (w : World) (fs' : FS)
        (tarBuf : list Byte.byte) (dir : Inode) :
  faultFree w ->
  staged d boot2dockerURL (w_fs w) fs' ->
  fs' !! GetDiskPath d = None ->
  mcnutils_MakeDiskImage (publicSSHKeyPath d) fs' = Ok tarBuf ->
  imageInMachineDir d ->
  fs' !! ResolveStorePath d "." = Some dir ->
  i_kind dir = KDir ->
  entriesResolve fs' (ResolveStorePath d ".") ->
  (0 <= int64 (intMul diskSize 1000000))%Z ->
  exists w',
    MakeDiskImage d boot2dockerURL diskSize w = (Ok tt, w')
    /\ is_Some (w_fs w' !! GetDiskPath d)
    /\ EvOpen (GetDiskPath d) ∈ eventsSince w w'.
Proof.
  intros Hff Hstaged Hnone Htar (Hdir & Hne & Hjoin) Hmach Hkind Hall Hpos.
  destruct (MakeDiskImage_staged d boot2dockerURL diskSize w fs' Hstaged)
    as (ws & Hfs & Hlog & _ & (_ & _ & _ & _ & Hflt) & ->).
  subst fs'.
  rewrite bool_decide_eq_true_2 by (by split).
  assert (faultFree ws) as Hffs by (intros n; by rewrite Hflt).
  destruct (createRawDiskImage_fault_free (publicSSHKeyPath d) (GetDiskPath d)
              diskSize ws tarBuf dir Hffs) as [Hres Hfsc]; [done|done| |done|].
  { by rewrite Hdir. }
  destruct (Z.ltb_spec (int64 (intMul diskSize 1000000)) 0); [lia|].
  pose proof (createRawDiskImage_outcome (publicSSHKeyPath d) (GetDiskPath d)
                diskSize ws) as Hout.
  destruct (createRawDiskImage _ _ _ ws) as [r wc]. cbn [fst snd] in *. subst r.
  inversion Hout as [| |
                     |tarBuf' wc' i fd _ _ _ _ _ _ _ Hlogc _ _ Hfltc]; subst.
  destruct (fixPermissions_total (ResolveStorePath d ".") wc dir) as (w' & Hfix).
  - intros n. by rewrite Hfltc.
  - by rewrite Hfsc, lookup_insert_ne.
  - done.
  - unfold entriesResolve. rewrite Hfsc.
    rewrite entries_insert_new by done.
    apply Forall_cons. split.
    + rewrite Hjoin, lookup_insert_eq. eauto.
    + eapply Forall_impl; [exact Hall|].
      intros g Hg. by apply is_Some_insert.
  - rewrite Hfix. exists w'. split; [done|].
    apply fixPermissions_ok in Hfix as (Hex & (files & Hlogf) & _).
    split.
    + apply Hex. rewrite Hfsc, lookup_insert_eq. eauto.
    + erewrite eventsSince_app.
      2: { rewrite Hlogf, Hlogc, Hlog. rewrite <- !app_assoc. done. }
      unfold skipEvents. cbn [app].
      do 4 apply list_elem_of_further. apply list_elem_of_here.
Qed.

End ProvisionSucceeds.

(** ** Runs on the sample machine *)

Lemma X1_InstallOrUpdate_missing_driver_witness :
  EvExec Sample.kvm2 ["version"]
    ∉ eventsSince Sample.w0
        (@InstallOrUpdate Sample.externals Sample.kvm2 "/usr/local/bin"
                          Sample.v100 Sample.w0).2.
Proof.
  apply (@X1_InstallOrUpdate_missing_driver Sample.externals Sample.kvm2
           "/usr/local/bin" Sample.v100 Sample.w0
           (ErrorString "executable file not found in $PATH")).
  reflexivity.
Defined.

Lemma X2_InstallOrUpdate_errors_witness :
  exists cause,
    Semver.Make "abc" = Err cause
    /\ (@InstallOrUpdate Sample.externals Sample.kvm2 "/usr/local/bin"
                         Sample.v100 unparsable).2
       = probeWorld Sample.kvm2 unparsable.
Proof.
  destruct (@X2_InstallOrUpdate_errors Sample.externals Sample.kvm2
              "/usr/local/bin" Sample.v100 unparsable
              (@InstallOrUpdate Sample.externals Sample.kvm2 "/usr/local/bin"
                                Sample.v100 unparsable).2
              (Wrap (ErrorString "No Major.Minor.Patch elements found")
                    "can't parse driver version"))
    as [(cause & found & output & _ & _ & Hout & Hmake & Hw)
       |(_ & cause & [Herr|Herr])].
  - vm_compute. reflexivity.
  - exists cause. injection Hout as <-. split; [exact Hmake|exact Hw].
  - discriminate Herr.
  - discriminate Herr.
Defined.

Lemma X4_download_fetch_failure_witness :
  exists w',
    @download offline Sample.kvm2 "/usr/local/bin" staleDriver
    = (Err (Wrap (ErrorString "no route to host")
                 ("can't download driver docker-machine-driver-kvm2 from: "
                  +:+ driverKVMDownloadURL)), w')
    /\ w_fs w' = Sample.fs0.
Proof.
  destruct (@X4_download_fetch_failure offline "/usr/local/bin" staleDriver
              (ErrorString "no route to host") Sample.fs0)
    as (w' & Hrun & Hfs & _).
  - vm_compute. reflexivity.
  - exists w'. split; [exact Hrun|exact Hfs].
Defined.

Lemma X5_download_makes_driver_executable_witness :
  exists w' i,
    @download Sample.externals Sample.kvm2 "/usr/local/bin" Sample.w0 = (Ok tt, w')
    /\ w_fs w' !! "/usr/local/bin/docker-machine-driver-kvm2" = Some i
    /\ i_mode i = 511%Z.
Proof.
  destruct (@X5_download_makes_driver_executable Sample.externals "/usr/local/bin"
              Sample.w0
              (<["/usr/local/bin/docker-machine-driver-kvm2" :=
                   Sample.file (Sample.bytesOf "driver") 0 0 420]> Sample.fs0)
              eq_refl eq_refl)
    as (w' & Hrun & _ & i & Hi & Hmode & _).
  exists w', i. split; [exact Hrun|]. split; [exact Hi|exact Hmode].
Defined.

Lemma X6_download_ignores_stale_file_witness :
  @download Sample.externals Sample.kvm2 "/usr/local/bin" staleDriver
  = @download Sample.externals Sample.kvm2 "/usr/local/bin"
              (set_fs (delete "/usr/local/bin/docker-machine-driver-kvm2") staleDriver).
Proof.
  apply (@X6_download_ignores_stale_file Sample.externals "/usr/local/bin"
           staleDriver (Sample.file (Sample.bytesOf "old driver") 0 0 493)).
  - reflexivity.
  - reflexivity.
  - reflexivity.
Defined.

Lemma X3_InstallOrUpdate_prerelease_is_older_witness :
  @InstallOrUpdate Sample.externals Sample.kvm2 "/usr/local/bin" Sample.v100
                   releaseCandidate
  = @download Sample.externals Sample.kvm2 "/usr/local/bin"
              (probeWorld Sample.kvm2 releaseCandidate).
Proof.
  apply (@X3_InstallOrUpdate_prerelease_is_older Sample.externals Sample.kvm2
           "/usr/local/bin" Sample.v100 releaseCandidate
           "/usr/local/bin/docker-machine-driver-kvm2" "version: v1.0.0-rc.1"
           (Semver.mkVersion 1 0 0
              [Semver.mkPRVersion "rc" 0 false; Semver.mkPRVersion "" 1 true] [])).
  - reflexivity.
  - reflexivity.
  - vm_compute. reflexivity.
  - reflexivity.
  - reflexivity.
  - reflexivity.
  - discriminate.
  - reflexivity.
Defined.

Lemma X8_createRawDiskImage_succeeds_witness :
  exists w',
    @createRawDiskImage Sample.externals pubkey rawdisk 20000 ready = (Ok tt, w')
    /\ exists i, w_fs w' !! rawdisk = Some i
                 /\ i_size i = 20000000000%Z /\ i_uid i = 0%Z.
Proof.
  destruct (@X8_createRawDiskImage_succeeds Sample.externals pubkey rawdisk 20000
              ready
              (Sample.bytesOf "boot2docker, please format-me"
                 ++ Sample.bytesOf "public")
              (Sample.dir 1000 1000))
    as (w' & Hrun & Hfs).
  - intros n. reflexivity.
  - vm_compute. reflexivity.
  - vm_compute. reflexivity.
  - vm_compute. reflexivity.
  - reflexivity.
  - vm_compute. discriminate.
  - exists w'. split; [exact Hrun|]. rewrite Hfs. eexists.
    split; [apply lookup_insert_eq|]. split; vm_compute; reflexivity.
Defined.

Lemma X9_createRawDiskImage_negative_size_witness :
  exists w' i,
    @createRawDiskImage Sample.externals pubkey rawdisk tooLarge ready
    = (Err (Wrap (Errno EINVAL) "truncate"), w')
    /\ w_fs w' !! rawdisk = Some i
    /\ i_size i = 35%Z.
Proof.
  destruct (@X9_createRawDiskImage_negative_size Sample.externals pubkey rawdisk
              tooLarge ready
              (Sample.bytesOf "boot2docker, please format-me"
                 ++ Sample.bytesOf "public")
              (Sample.dir 1000 1000))
    as (w' & Hrun & Hfs).
  - intros n. reflexivity.
  - vm_compute. reflexivity.
  - vm_compute. reflexivity.
  - vm_compute. reflexivity.
  - reflexivity.
  - vm_compute. reflexivity.
  - exists w'. eexists. split; [exact Hrun|]. rewrite Hfs.
    split; [apply lookup_insert_eq|]. vm_compute. reflexivity.
Defined.

Lemma X10_createRawDiskImage_needs_directory_witness :
  exists w',
    @createRawDiskImage Sample.externals "/keys/id_rsa.pub" rawdisk 20000
                        noMachineDir
    = (Err (Wrap (Errno ENOENT) "open"), w')
    /\ w_fs w' = w_fs noMachineDir.
Proof.
  apply (@X10_createRawDiskImage_needs_directory Sample.externals "/keys/id_rsa.pub"
           rawdisk 20000 noMachineDir
           (Sample.bytesOf "boot2docker, please format-me"
              ++ Sample.bytesOf "public")).
  - vm_compute. reflexivity.
  - reflexivity.
  - vm_compute. reflexivity.
Defined.

Lemma X11_createRawDiskImage_success_state_witness :
  w_fs ready !! rawdisk = None
  /\ exists i,
       w_fs (@createRawDiskImage Sample.externals pubkey rawdisk 20000 ready).2
         !! rawdisk = Some i
       /\ i_mode i = 420%Z.
Proof.
  destruct (@X11_createRawDiskImage_success_state Sample.externals pubkey rawdisk
              20000 ready
              (@createRawDiskImage Sample.externals pubkey rawdisk 20000 ready).2)
    as (tarBuf & _ & Hnone & Hfs).
  - vm_compute. reflexivity.
  - split; [exact Hnone|]. rewrite Hfs. eexists.
    split; [apply lookup_insert_eq|]. vm_compute. reflexivity.
Defined.


Lemma X14_fixPermissions_on_regular_file_witness :
  exists w',
    fixPermissions pubkey ready = (Err (Wrap (Errno ENOTDIR) "read dir"), w')
    /\ eventsSince ready w' = [EvChown pubkey 1000 1000; EvReadDir pubkey].
Proof.
  destruct (X14_fixPermissions_on_regular_file pubkey ready
              (Sample.file (Sample.bytesOf "public") 0 0 420))
    as (w' & Hrun & _ & Hevs).
  - vm_compute. reflexivity.
  - reflexivity.
  - reflexivity.
  - reflexivity.
  - exists w'. split; [exact Hrun|exact Hevs].
Defined.

Lemma X15_fixPermissions_chowns_each_entry_once_witness :
  exists files,
    files ≡ₚ Os.entries (w_fs ready) "/store/machines/m"
    /\ eventsSince ready (fixPermissions "/store/machines/m" ready).2
       = EvChown "/store/machines/m" (w_uid ready) (w_egid ready)
         :: EvReadDir "/store/machines/m"
         :: ((fun f => EvChown (Filepath.Join ["/store/machines/m"; f])
                               (w_uid ready) (w_egid ready)) <$> files).
Proof.
  apply (X15_fixPermissions_chowns_each_entry_once "/store/machines/m" ready
           (fixPermissions "/store/machines/m" ready).2).
  vm_compute. reflexivity.
Defined.

Lemma X16_fixPermissions_touches_only_entries_witness :
  w_fs (fixPermissions "/store/machines/m" nested).2
    !! "/store/machines/m/logs/vm.log"
  = w_fs nested !! "/store/machines/m/logs/vm.log".
Proof.
  apply (X16_fixPermissions_touches_only_entries "/store/machines/m" nested
           "/store/machines/m/logs/vm.log").
  - apply String.eqb_neq. reflexivity.
  - intros name Hin.
    assert (Os.entries (w_fs nested) "/store/machines/m"
            = ["id_rsa.pub"; "id_rsa"; "logs"]) as Hentries
      by (vm_compute; reflexivity).
    rewrite Hentries in Hin.
    repeat (apply elem_of_cons in Hin as [->|Hin];
            [apply String.eqb_neq; vm_compute; reflexivity|]).
    apply elem_of_nil in Hin. destruct Hin.
Defined.

Lemma X18_MakeDiskImage_errors_witness :
  exists cause,
    Wrap (ErrorString "no route to host") "copy iso to machine dir"
    = Wrap cause "copy iso to machine dir"
    /\ eventsSince Sample.w0 (@MakeDiskImage offline Sample.d "url" 20000 Sample.w0).2
       = [EvCopyIso "/store" "url" "m"].
Proof.
  destruct (@X18_MakeDiskImage_errors offline Sample.d "url" 20000 Sample.w0
              (@MakeDiskImage offline Sample.d "url" 20000 Sample.w0).2
              (Wrap (ErrorString "no route to host") "copy iso to machine dir"))
    as [Hiso|[(c & Herr & _)|[(c & Herr & _)|(c & i & Herr & _)]]].
  - vm_compute. reflexivity.
  - exact Hiso.
  - discriminate Herr.
  - discriminate Herr.
  - discriminate Herr.
Defined.

Lemma X19_MakeDiskImage_stat_failure_skips_build_witness :
  exists w',
    @MakeDiskImage Sample.externals Sample.d "url" 20000 statDenied = (Ok tt, w')
    /\ w_fs w' !! rawdisk = None.
Proof.
  destruct (@X19_MakeDiskImage_stat_failure_skips_build Sample.externals Sample.d
              "url" 20000 statDenied
              (@ssh_GenerateSSHKey Sample.externals "/store/machines/m/id_rsa"
                 (@b2d_CopyIsoToMachineDir Sample.externals "/store" "url" "m"
                    Sample.fs0).2).2
              FaultAccess)
    as (w' & Hrun & Hfs & _).
  - exists (@b2d_CopyIsoToMachineDir Sample.externals "/store" "url" "m"
              Sample.fs0).2.
    split; vm_compute; reflexivity.
  - reflexivity.
  - exists w'. split; [exact Hrun|]. rewrite Hfs. vm_compute. reflexivity.
Defined.

Lemma X20_MakeDiskImage_partial_image_blocks_retry_witness :
  exists w2,
    @MakeDiskImage Sample.externals Sample.d "url" 20000
      (@MakeDiskImage Sample.externals Sample.d "url" 20000 fullDuringProvision).2
    = (Ok tt, w2)
    /\ is_Some (w_fs w2 !! rawdisk).
Proof.
  destruct (@X20_MakeDiskImage_partial_image_blocks_retry Sample.externals Sample.d
              "url" 20000 fullDuringProvision
              (@MakeDiskImage Sample.externals Sample.d "url" 20000
                 fullDuringProvision).2
              (w_fs (@MakeDiskImage Sample.externals Sample.d "url" 20000
                       fullDuringProvision).2)
              (Errno ENOSPC) "write tar")
    as (w2 & Hrun & _ & Hthere & _).
  - vm_compute. reflexivity.
  - apply list_elem_of_further, list_elem_of_here.
  - exists (w_fs (@MakeDiskImage Sample.externals Sample.d "url" 20000
                    fullDuringProvision).2).
    split; vm_compute; reflexivity.
  - reflexivity.
  - exists w2. split; [exact Hrun|exact Hthere].
Defined.

Lemma X21_MakeDiskImage_new_image_witness :
  exists i,
    w_fs provisioned !! rawdisk = Some i
    /\ i_size i = 20000000000%Z
    /\ i_uid i = 1000%Z.
Proof.
  destruct (@X21_MakeDiskImage_new_image Sample.externals Sample.d "url" 20000
              Sample.w0 provisioned)
    as (i & Hi & _ & Hsize & _ & Huid & _).
  - split; [|split]; vm_compute; [reflexivity|discriminate|reflexivity].
  - vm_compute. discriminate.
  - vm_compute. discriminate.
  - vm_compute. reflexivity.
  - vm_compute. do 4 apply list_elem_of_further. apply list_elem_of_here.
  - exists i. split; [exact Hi|]. split; [exact Hsize|exact Huid].
Defined.

Lemma X17_fixPermissions_succeeds_witness :
  exists w', fixPermissions "/store/machines/m" ready = (Ok tt, w').
Proof.
  apply (X17_fixPermissions_succeeds "/store/machines/m" ready (Sample.dir 1000 1000)).
  - intros n. reflexivity.
  - vm_compute. reflexivity.
  - reflexivity.
  - unfold entriesResolve.
    assert (Os.entries (w_fs ready) "/store/machines/m" = ["id_rsa.pub"; "id_rsa"])
      as Hentries by (vm_compute; reflexivity).
    rewrite Hentries.
    repeat (apply Forall_cons; split; [vm_compute; eexists; reflexivity|]).
    apply Forall_nil_2.
Defined.

Lemma X22_MakeDiskImage_succeeds_witness :
  exists w',
    @MakeDiskImage Sample.externals Sample.d "url" 20000 Sample.w0 = (Ok tt, w')
    /\ is_Some (w_fs w' !! rawdisk).
Proof.
  destruct (@X22_MakeDiskImage_succeeds Sample.externals Sample.d "url" 20000
              Sample.w0
              (<["/store/machines/m/boot2docker.iso" :=
                   Sample.file (Sample.bytesOf "iso") 0 0 420]> keyed)
              (Sample.bytesOf "boot2docker, please format-me"
                 ++ Sample.bytesOf "public")
              (Sample.dir 1000 1000))
    as (w' & Hrun & Hthere & _).
  - intros n. reflexivity.
  - exists (@b2d_CopyIsoToMachineDir Sample.externals "/store" "url" "m"
              Sample.fs0).2.
    split; vm_compute; reflexivity.
  - vm_compute. reflexivity.
  - vm_compute. reflexivity.
  - split; [|split]; [vm_compute; reflexivity
                     |apply String.eqb_neq; vm_compute; reflexivity
                     |vm_compute; reflexivity].
  - vm_compute. reflexivity.
  - reflexivity.
  - unfold entriesResolve.
    assert (Os.entries (<["/store/machines/m/boot2docker.iso" :=
                            Sample.file (Sample.bytesOf "iso") 0 0 420]> keyed)
                       (ResolveStorePath Sample.d ".")
            = ["id_rsa.pub"; "id_rsa"; "boot2docker.iso"])
      as Hentries by (vm_compute; reflexivity).
    rewrite Hentries.
    repeat (apply Forall_cons; split; [vm_compute; eexists; reflexivity|]).
    apply Forall_nil_2.
  - vm_compute. discriminate.
  - exists w'. split; [exact Hrun|exact Hthere].
Defined.
